(** * LinDB data family and cluster master: a shallow embedding

    The development follows two source files of the repository:

    - [tsdb/family.go] (package [tsdb]): the [dataFamily] storage unit with its
      double-buffered memory database, the per-leader replica sequences, the
      acknowledge callbacks and the flush path;
    - [coordinator/master.go] (package [coordinator]): [master.FlushDatabase].

    Go maps are finite maps ([gmap]); [int32] leaders, [int64] sequences,
    sizes and durations are integers ([Z]): the code only stores and compares
    them, so no wrap-around arises.  Collaborators that live outside these
    files (the memory database, the kv flusher, the interval calculator, the
    callbacks registered by replica consumers) are interfaces: a type class for
    the memory database, function fields, and explicit outcomes for calls whose
    result the family only inspects.  Every call made on such a collaborator is
    appended to the [events] field of the family, which is how "called once",
    "not called" and "still processed" are stated. *)

From stdpp Require Import gmap strings list fin_maps.
From Stdlib Require Import ZArith Lia.

Open Scope Z_scope.

Module tsdb.

(** Go's [error]; [None] in an [option error] is [nil]. *)
Definition error : Type := string.

(** A callback [func(seq int64)] handed to [AckSequence] is an opaque closure;
    it is named by a tag, and each invocation is recorded as [EvAck]. *)
Definition Callback : Type := nat.

(** [metric.StorageRow], reduced to what [WriteRows] reads and writes. *)
Record StorageRow := mkRow {
  Writable : bool;
  Timestamp : Z;
  SlotIndex : Z;
  FieldIDs : list Z
}.

Definition withSlotIndex (slot : Z) (row : StorageRow) : StorageRow :=
  {| Writable := Writable row; Timestamp := Timestamp row;
     SlotIndex := slot; FieldIDs := FieldIDs row |}.

(** The conversion [uint16(x)] of a Go [int]. *)
Definition uint16 (x : Z) : Z := x mod 65536.

(** The part of [memdb.MemoryDatabase] that the family consumes.  [WriteRow]
    returns the new database, the appended size and the error. *)
Class MemoryDatabase (M : Type) := {
  Size : M -> Z;
  MemSize : M -> Z;
  Uptime : M -> Z;
  MarkReadOnly : M -> M;
  WriteRow : M -> StorageRow -> M * (Z * option error)
}.

(** Calls on collaborators, in program order. *)
Inductive Event :=
| EvNewMemoryDB (familyTime : Z)
| EvWriteRow (row : StorageRow) (err : option error)
| EvMarkReadOnly
| EvSequence (leader seq : Z)
| EvFlushFamilyTo (err : option error)
| EvRelease
| EvMemDBClose (err : option error)
| EvAck (fn : Callback) (seq : Z).

(** The callback invocations among recorded calls. *)
Definition isAck (ev : Event) : bool :=
  match ev with EvAck _ _ => true | _ => false end.

(** [metrics.FamilyStatistics]: the counters touched by the family (the flush
    duration histogram is timing only and is left out).  The Go counters take
    [float64] increments that are always converted integers. *)
Record FamilyStatistics := mkStats {
  ActiveFamilies : Z;
  ActiveMemDBs : Z;
  WriteBatches : Z;
  WriteMetrics : Z;
  WriteFields : Z;
  WriteMetricFailures : Z;
  MemDBTotalSize : Z;
  MemDBFlushFailures : Z
}.

(** [config.GlobalStorageConfig().TSDB], the two thresholds of [NeedFlush]. *)
Record TSDBConfig := mkTSDB {
  MutableMemDBTTL : Z;
  MaxMemDBSize : Z
}.

(** The results of the calls that [flushMemoryDatabase] makes on the kv
    flusher and on the memory database. *)
Record FlushOutcome := mkOutcome {
  newMetricDataFlusherErr : option error;
  FlushFamilyToErr : option error;
  memDBCloseErr : option error
}.

Definition flushOK : FlushOutcome := mkOutcome None None None.

Section Family.

Context {M : Type} `{MemoryDatabase M}.

(** The struct [dataFamily].  [indicator], [shard], [timeRange], [family] and
    [logger] are read-only handles that no modelled operation branches on;
    [registered] is the entry of this family in the global family manager;
    [mutex] is implicit: every function below that locks it is one atomic
    step. *)
Record dataFamily := mkFamily {
  interval : Z;
  CalcSlot : Z -> Z -> Z -> Z;
  familyTime : Z;
  mutableMemDB : option M;
  immutableMemDB : option M;
  seq : gmap Z Z;
  immutableSeq : option (gmap Z Z);
  persistSeq : gmap Z Z;
  callbacks : gmap Z (list Callback);
  isFlushing : bool;
  flushCondition : Z;
  statistics : FamilyStatistics;
  registered : bool;
  events : list Event
}.

(** ** Field updates *)

Definition set_mutableMemDB (v : option M) (f : dataFamily) : dataFamily :=
  mkFamily (interval f) (CalcSlot f) (familyTime f) v (immutableMemDB f) (seq f)
    (immutableSeq f) (persistSeq f) (callbacks f) (isFlushing f)
    (flushCondition f) (statistics f) (registered f) (events f).

Definition set_immutableMemDB (v : option M) (f : dataFamily) : dataFamily :=
  mkFamily (interval f) (CalcSlot f) (familyTime f) (mutableMemDB f) v (seq f)
    (immutableSeq f) (persistSeq f) (callbacks f) (isFlushing f)
    (flushCondition f) (statistics f) (registered f) (events f).

Definition set_seq (v : gmap Z Z) (f : dataFamily) : dataFamily :=
  mkFamily (interval f) (CalcSlot f) (familyTime f) (mutableMemDB f)
    (immutableMemDB f) v (immutableSeq f) (persistSeq f) (callbacks f)
    (isFlushing f) (flushCondition f) (statistics f) (registered f) (events f).

Definition set_immutableSeq (v : option (gmap Z Z)) (f : dataFamily) : dataFamily :=
  mkFamily (interval f) (CalcSlot f) (familyTime f) (mutableMemDB f)
    (immutableMemDB f) (seq f) v (persistSeq f) (callbacks f)
    (isFlushing f) (flushCondition f) (statistics f) (registered f) (events f).

Definition set_callbacks (v : gmap Z (list Callback)) (f : dataFamily) : dataFamily :=
  mkFamily (interval f) (CalcSlot f) (familyTime f) (mutableMemDB f)
    (immutableMemDB f) (seq f) (immutableSeq f) (persistSeq f) v
    (isFlushing f) (flushCondition f) (statistics f) (registered f) (events f).

Definition set_isFlushing (v : bool) (f : dataFamily) : dataFamily :=
  mkFamily (interval f) (CalcSlot f) (familyTime f) (mutableMemDB f)
    (immutableMemDB f) (seq f) (immutableSeq f) (persistSeq f) (callbacks f)
    v (flushCondition f) (statistics f) (registered f) (events f).

Definition set_flushCondition (v : Z) (f : dataFamily) : dataFamily :=
  mkFamily (interval f) (CalcSlot f) (familyTime f) (mutableMemDB f)
    (immutableMemDB f) (seq f) (immutableSeq f) (persistSeq f) (callbacks f)
    (isFlushing f) v (statistics f) (registered f) (events f).

Definition set_statistics (v : FamilyStatistics) (f : dataFamily) : dataFamily :=
  mkFamily (interval f) (CalcSlot f) (familyTime f) (mutableMemDB f)
    (immutableMemDB f) (seq f) (immutableSeq f) (persistSeq f) (callbacks f)
    (isFlushing f) (flushCondition f) v (registered f) (events f).

Definition set_registered (v : bool) (f : dataFamily) : dataFamily :=
  mkFamily (interval f) (CalcSlot f) (familyTime f) (mutableMemDB f)
    (immutableMemDB f) (seq f) (immutableSeq f) (persistSeq f) (callbacks f)
    (isFlushing f) (flushCondition f) (statistics f) v (events f).

(** Record calls on collaborators. *)
Definition emit (evs : list Event) (f : dataFamily) : dataFamily :=
  mkFamily (interval f) (CalcSlot f) (familyTime f) (mutableMemDB f)
    (immutableMemDB f) (seq f) (immutableSeq f) (persistSeq f) (callbacks f)
    (isFlushing f) (flushCondition f) (statistics f) (registered f)
    (events f ++ evs).

Definition addStat (d : FamilyStatistics) (f : dataFamily) : dataFamily :=
  let s := statistics f in
  set_statistics
    (mkStats (ActiveFamilies s + ActiveFamilies d) (ActiveMemDBs s + ActiveMemDBs d)
       (WriteBatches s + WriteBatches d) (WriteMetrics s + WriteMetrics d)
       (WriteFields s + WriteFields d)
       (WriteMetricFailures s + WriteMetricFailures d)
       (MemDBTotalSize s + MemDBTotalSize d)
       (MemDBFlushFailures s + MemDBFlushFailures d)) f.

(** Increments of a single counter, as [Counter.Add(n)]. *)
Definition dActiveFamilies (n : Z) := mkStats n 0 0 0 0 0 0 0.
Definition dActiveMemDBs (n : Z) := mkStats 0 n 0 0 0 0 0 0.
Definition dWriteBatches (n : Z) := mkStats 0 0 n 0 0 0 0 0.
Definition dWriteMetrics (n : Z) := mkStats 0 0 0 n 0 0 0 0.
Definition dWriteFields (n : Z) := mkStats 0 0 0 0 n 0 0 0.
Definition dWriteMetricFailures (n : Z) := mkStats 0 0 0 0 0 n 0 0.
Definition dMemDBTotalSize (n : Z) := mkStats 0 0 0 0 0 0 n 0.
Definition dMemDBFlushFailures (n : Z) := mkStats 0 0 0 0 0 0 0 n.

(** ** [newDataFamily]

    [sequences] is what [snapshot.GetCurrent().GetSequences()] returns: the
    sequences persisted in the kv family.  They seed both [seq] and
    [persistSeq]; the family registers itself in the family manager. *)
Definition newDataFamily (interval0 : Z) (calc : Z -> Z -> Z -> Z)
    (familyTime0 : Z) (sequences : gmap Z Z) : dataFamily :=
  mkFamily interval0 calc familyTime0 None None sequences None sequences ∅
    false 0 (dActiveFamilies 1) true [].

(** ** Sequences *)

(** [ValidateSequence]: under the mutex, [true] for an unknown leader, else
    [seq > seqForLeader.Load()].  The family is only read. *)
Definition ValidateSequence (leader s : Z) (f : dataFamily) : bool :=
  match seq f !! leader with
  | None => true
  | Some seqForLeader => bool_decide (s > seqForLeader)
  end.

(** [CommitSequence]: reads [f.seq[leader]] (the zero value when absent),
    stores [seq] in it and writes it back. *)
Definition CommitSequence (leader s : Z) (f : dataFamily) : dataFamily :=
  set_seq (<[leader := s]> (seq f)) f.

(** [AckSequence]: appends [fn] to the callbacks of [leader], then invokes it
    with the current sequence when the leader has one. *)
Definition AckSequence (leader : Z) (fn : Callback) (f : dataFamily) : dataFamily :=
  let f1 :=
    set_callbacks
      (<[leader := default [] (callbacks f !! leader) ++ [fn]]> (callbacks f)) f in
  match seq f1 !! leader with
  | Some seqForLeader => emit [EvAck fn seqForLeader] f1
  | None => f1
  end.

(** ** The write path *)

(** [GetOrCreateMemoryDatabase]: under the mutex, creates the mutable memory
    database when it is absent.  [newMemoryDBFunc] is the package variable of
    that name, applied to the family time of the configuration. *)
Definition GetOrCreateMemoryDatabase (newMemoryDBFunc : Z -> M + error)
    (familyTime0 : Z) (f : dataFamily) : (M + error) * dataFamily :=
  match mutableMemDB f with
  | Some db => (inl db, f)
  | None =>
      let f1 := emit [EvNewMemoryDB familyTime0] f in
      match newMemoryDBFunc familyTime0 with
      | inr err => (inr err, f1)
      | inl newDB =>
          (inl newDB, addStat (dActiveMemDBs 1) (set_mutableMemDB (Some newDB) f1))
      end
  end.

(** [row.SlotIndex = uint16(f.intervalCalc.CalcSlot(row.Timestamp(),
    f.familyTime, f.interval.Int64()))], on the loop's copy of the row. *)
Definition slotOf (f : dataFamily) (row : StorageRow) : StorageRow :=
  withSlotIndex
    (uint16 (CalcSlot f (Timestamp row) (familyTime f) (interval f))) row.

(** Whether a call returned an error. *)
Definition failed (err : option error) : bool :=
  match err with Some _ => true | None => false end.

(** The body of the [for idx := range rows] loop of [WriteRows]; [db] is the
    memory database being written and [total] the local of that name. *)
Fixpoint writeLoop (rows : list StorageRow) (db : M) (total : Z)
    (f : dataFamily) : M * Z * dataFamily :=
  match rows with
  | [] => (db, total, f)
  | row :: rest =>
      if negb (Writable row) then
        writeLoop rest db total (addStat (dWriteMetricFailures 1) f)
      else
        let row' := slotOf f row in
        match WriteRow db row' with
        | (db', (size, None)) =>
            writeLoop rest db' (total + size)
              (addStat (dWriteFields (Z.of_nat (length (FieldIDs row'))))
                 (addStat (dWriteMetrics 1) (emit [EvWriteRow row' None] f)))
        | (db', (_, Some err)) =>
            writeLoop rest db' total
              (addStat (dWriteMetricFailures 1)
                 (emit [EvWriteRow row' (Some err)] f))
        end
  end.

(** [WriteRows].  The memory database is a shared object: what the loop wrote
    is what [f.mutableMemDB] holds afterwards.  The deferred function counts
    the batch. *)
Definition WriteRows (newMemoryDBFunc : Z -> M + error) (rows : list StorageRow)
    (f : dataFamily) : option error * dataFamily :=
  match rows with
  | [] => (None, f)
  | _ :: _ =>
      match GetOrCreateMemoryDatabase newMemoryDBFunc (familyTime f) f with
      | (inr err, f1) =>
          (Some err,
           addStat (dWriteMetricFailures (Z.of_nat (length rows))) f1)
      | (inl db, f1) =>
          match writeLoop rows db 0 f1 with
          | (db', total, f2) =>
              (None,
               addStat (dWriteBatches 1)
                 (addStat (dMemDBTotalSize total)
                    (set_mutableMemDB (Some db') f2)))
          end
      end
  end.

(** ** Flush admission *)

Definition IsFlushing (f : dataFamily) : bool := isFlushing f.

(** [NeedFlush], one early return per [if] of the source. *)
Definition NeedFlush (cfg : TSDBConfig) (f : dataFamily) : bool :=
  if IsFlushing f then false
  else
    match immutableMemDB f with
    | Some _ => false
    | None =>
        match mutableMemDB f with
        | None => false
        | Some db =>
            if bool_decide (Size db <= 0) then false
            else if bool_decide (Uptime db >= MutableMemDBTTL cfg) then true
            else if bool_decide (MemSize db >= MaxMemDBSize cfg) then true
            else false
        end
    end.

(** [MemDBSize]. *)
Definition MemDBSize (f : dataFamily) : Z :=
  match mutableMemDB f with
  | Some db => MemSize db
  | None => 0
  end.

(** ** The flush path *)

(** [for leader, seq := range sequences { flusher.Sequence(leader, seq) }].
    Go ranges over a map in an unspecified order; the model takes the order of
    [map_to_list], and no statement below depends on it. *)
Definition sequenceEvents (sequences : gmap Z Z) : list Event :=
  map (fun p => EvSequence p.1 p.2) (map_to_list sequences).

(** The "invoke sequence ack callback" loop of [flushMemoryDatabase]: the
    callbacks of each leader of [sequences] are called with the sequence that
    was flushed. *)
Definition ackFlushed (sequences : gmap Z Z) (cbs : gmap Z (list Callback))
    : list Event :=
  flat_map
    (fun p => match cbs !! p.1 with
              | Some fns => map (fun fn => EvAck fn p.2) fns
              | None => []
              end)
    (map_to_list sequences).

(** [flushMemoryDatabase].  The deferred [flusher.Release()] closes every
    path.  An error of [memDB.Close()] is ignored. *)
Definition flushMemoryDatabase (o : FlushOutcome) (sequences : gmap Z Z)
    (memDB : M) (f : dataFamily) : option error * dataFamily :=
  let f1 := emit (sequenceEvents sequences) f in
  match newMetricDataFlusherErr o with
  | Some err => (Some err, emit [EvRelease] f1)
  | None =>
      let f2 := emit [EvFlushFamilyTo (FlushFamilyToErr o)] f1 in
      match FlushFamilyToErr o with
      | Some err =>
          (Some err, emit [EvRelease] (addStat (dMemDBFlushFailures 1) f2))
      | None =>
          let f3 := emit (ackFlushed sequences (callbacks f2)) f2 in
          let f4 :=
            addStat (dMemDBTotalSize (- MemSize memDB))
              (addStat (dActiveMemDBs (-1)) f3) in
          (None, emit [EvMemDBClose (memDBCloseErr o); EvRelease] f4)
      end
  end.

(** The snapshot [immutableSeq[leader] = seq.Load()] over [f.seq]. *)
Definition snapshotSeq (f : dataFamily) : gmap Z Z := seq f.

(** First critical section of [Flush] (lines 242-258): [None] when there is
    nothing to promote, else the family after the switch together with the
    locals [immutableSeq] and [waitingFlushMemDB]. *)
Definition Flush_promote (f : dataFamily)
    : option (dataFamily * gmap Z Z * M) :=
  match immutableMemDB f, mutableMemDB f with
  | Some _, _ => None
  | None, None => None
  | None, Some db =>
      if bool_decide (Size db = 0) then None
      else
        let waitingFlushMemDB := MarkReadOnly db in
        let immutableSeq0 := snapshotSeq f in
        Some (set_immutableSeq (Some immutableSeq0)
                (emit [EvMarkReadOnly]
                   (set_mutableMemDB None
                      (set_immutableMemDB (Some waitingFlushMemDB) f))),
              immutableSeq0, waitingFlushMemDB)
  end.

(** [for leader, seq := range immutableSeq { f.seq[leader] = seq }]. *)
Definition restoreSeq (immutableSeq0 : gmap Z Z) (cur : gmap Z Z) : gmap Z Z :=
  foldr (fun p m => <[p.1 := p.2]> m) cur (map_to_list immutableSeq0).

(** The loop over [f.callbacks] at the end of [Flush]: every callback of a
    leader that has a sequence is called with that sequence. *)
Definition ackCurrent (cbs : gmap Z (list Callback)) (cur : gmap Z Z)
    : list Event :=
  flat_map
    (fun p => match cur !! p.1 with
              | Some s => map (fun fn => EvAck fn s) p.2
              | None => []
              end)
    (map_to_list cbs).

(** Second critical section of [Flush] (lines 265-280). *)
Definition Flush_commit (immutableSeq0 : gmap Z Z) (f : dataFamily) : dataFamily :=
  let f1 := set_immutableSeq None (set_immutableMemDB None f) in
  let f2 := set_seq (restoreSeq immutableSeq0 (seq f1)) f1 in
  emit (ackCurrent (callbacks f2) (seq f2)) f2.

(** The deferred function of [Flush]. *)
Definition Flush_done (f : dataFamily) : dataFamily :=
  set_isFlushing false (set_flushCondition (flushCondition f - 1) f).

(** [Flush], run without any other operation in between. *)
Definition Flush (o : FlushOutcome) (f : dataFamily) : option error * dataFamily :=
  if isFlushing f then (None, f)
  else
    let f0 := set_flushCondition (flushCondition f + 1) (set_isFlushing true f) in
    match Flush_promote f0 with
    | None => (None, Flush_done f0)
    | Some (f1, immutableSeq0, waitingFlushMemDB) =>
        match flushMemoryDatabase o immutableSeq0 waitingFlushMemDB f1 with
        | (Some err, f2) => (Some err, Flush_done f2)
        | (None, f2) => (None, Flush_done (Flush_commit immutableSeq0 f2))
        end
    end.

(** [Close].  [flushCondition.Wait()] returns only when no flush is counted;
    a call that finds a flush counted is blocked there, holding the mutex
    ([None]: no result in this state).  [o1] and [o2] are the outcomes of the
    flush of the immutable and of the mutable memory database.  A [nil]
    [immutableSeq] ranges as the empty map. *)
Definition Close (o1 o2 : FlushOutcome) (f : dataFamily)
    : option (option error * dataFamily) :=
  if bool_decide (flushCondition f = 0) then
    let r1 :=
      match immutableMemDB f with
      | Some db => flushMemoryDatabase o1 (default ∅ (immutableSeq f)) db f
      | None => (None, f)
      end in
    match r1 with
    | (Some err, f1) => Some (Some err, f1)
    | (None, f1) =>
        let r2 :=
          match mutableMemDB f1 with
          | Some db => flushMemoryDatabase o2 (snapshotSeq f1) db f1
          | None => (None, f1)
          end in
        match r2 with
        | (Some err, f2) => Some (Some err, f2)
        | (None, f2) =>
            Some (None, addStat (dActiveFamilies (-1)) (set_registered false f2))
        end
    end
  else None.

(** ** Schedules of whole operations *)

Inductive Op :=
| OpWriteRows (newMemoryDBFunc : Z -> M + error) (rows : list StorageRow)
| OpValidateSequence (leader s : Z)
| OpCommitSequence (leader s : Z)
| OpAckSequence (leader : Z) (fn : Callback)
| OpNeedFlush (cfg : TSDBConfig)
| OpMemDBSize
| OpFlush (o : FlushOutcome).

(** What an operation returns. *)
Inductive Ret :=
| RetUnit
| RetBool (b : bool)
| RetInt (n : Z)
| RetErr (err : option error).

Definition exec (op : Op) (f : dataFamily) : Ret * dataFamily :=
  match op with
  | OpWriteRows mk rows => let r := WriteRows mk rows f in (RetErr r.1, r.2)
  | OpValidateSequence l s => (RetBool (ValidateSequence l s f), f)
  | OpCommitSequence l s => (RetUnit, CommitSequence l s f)
  | OpAckSequence l fn => (RetUnit, AckSequence l fn f)
  | OpNeedFlush cfg => (RetBool (NeedFlush cfg f), f)
  | OpMemDBSize => (RetInt (MemDBSize f), f)
  | OpFlush o => let r := Flush o f in (RetErr r.1, r.2)
  end.

(** ** Schedules with a flush in flight

    [Flush] holds the mutex twice, around the switch of the memory databases
    and around the commit, and writes to disk in between without it.  Other
    goroutines run their operations (each under the mutex) before, between
    and after these three steps.  [FlushCall] is the running call: its locals
    [immutableSeq] and [waitingFlushMemDB], and the step it has reached. *)

Inductive Stage := Writing | Committing.

Record FlushCall := mkFlushCall {
  callImmutableSeq : gmap Z Z;
  callWaitingFlushMemDB : M;
  callStage : Stage
}.

Record System := mkSystem {
  fam : dataFamily;
  flushCall : option FlushCall
}.

Inductive Step :=
| StepOp (op : Op)
| StepFlushSwap
| StepFlushWrite (o : FlushOutcome)
| StepFlushCommit.

(** [Flush] up to the end of its first critical section (lines 229-258). *)
Definition stepFlushSwap (sys : System) : System :=
  let f := fam sys in
  if isFlushing f then sys
  else
    let f0 := set_flushCondition (flushCondition f + 1) (set_isFlushing true f) in
    match Flush_promote f0 with
    | None => mkSystem (Flush_done f0) (flushCall sys)
    | Some (f1, immutableSeq0, waitingFlushMemDB) =>
        mkSystem f1 (Some (mkFlushCall immutableSeq0 waitingFlushMemDB Writing))
    end.

(** The call of [flushMemoryDatabase] by [Flush] (lines 260-262). *)
Definition stepFlushWrite (o : FlushOutcome) (sys : System) : System :=
  match flushCall sys with
  | Some (mkFlushCall immutableSeq0 waitingFlushMemDB Writing) =>
      match flushMemoryDatabase o immutableSeq0 waitingFlushMemDB (fam sys) with
      | (Some err, f2) => mkSystem (Flush_done f2) None
      | (None, f2) =>
          mkSystem f2
            (Some (mkFlushCall immutableSeq0 waitingFlushMemDB Committing))
      end
  | _ => sys
  end.

(** The second critical section of [Flush] and its return (lines 264-288). *)
Definition stepFlushCommit (sys : System) : System :=
  match flushCall sys with
  | Some (mkFlushCall immutableSeq0 _ Committing) =>
      mkSystem (Flush_done (Flush_commit immutableSeq0 (fam sys))) None
  | _ => sys
  end.

(** A step that is not enabled leaves the system as it is. *)
Definition step (st : Step) (sys : System) : System :=
  match st with
  | StepOp op => mkSystem (exec op (fam sys)).2 (flushCall sys)
  | StepFlushSwap => stepFlushSwap sys
  | StepFlushWrite o => stepFlushWrite o sys
  | StepFlushCommit => stepFlushCommit sys
  end.

Fixpoint runSteps (steps : list Step) (sys : System) : System :=
  match steps with
  | [] => sys
  | st :: rest => runSteps rest (step st sys)
  end.

(** A family on which no [Flush] is running. *)
Definition idle (f : dataFamily) : System := mkSystem f None.

(** The caller contract of [CommitSequence]: the sequence is one that
    [ValidateSequence] accepts at that point. *)
Definition commitValidated (st : Step) (sys : System) : bool :=
  match st with
  | StepOp (OpCommitSequence l s) => ValidateSequence l s (fam sys)
  | _ => true
  end.

(** The commit is not for a leader whose sequence a running [Flush] has
    snapshotted and not yet committed. *)
Definition commitOutsideSnapshot (st : Step) (sys : System) : bool :=
  match st, flushCall sys with
  | StepOp (OpCommitSequence l s), Some c =>
      bool_decide (callImmutableSeq c !! l = None)
  | _, _ => true
  end.

Fixpoint admissible (steps : list Step) (sys : System) : bool :=
  match steps with
  | [] => true
  | st :: rest =>
      commitValidated st sys && commitOutsideSnapshot st sys &&
      admissible rest (step st sys)
  end.

(** While a [Flush] is between its snapshot and its commit, the leaders of
    the snapshot still have the sequences that were snapshotted. *)
Definition snapshotCurrent (sys : System) : Prop :=
  forall c, flushCall sys = Some c ->
    forall (l b : Z), callImmutableSeq c !! l = Some b ->
      seq (fam sys) !! l = Some b.

(** [seq] never goes down from [f] to [f']. *)
Definition seqNonDecreasing (f f' : dataFamily) : Prop :=
  forall (l a : Z), seq f !! l = Some a ->
    exists b, seq f' !! l = Some b /\ a <= b.

End Family.

(** ** Predicates used to state what schedules preserve *)

Section Invariants.

Context {M : Type} `{MemoryDatabase M}.

(** The callbacks of [f] are still registered in [f'], in the same order and
    before any later one. *)
Definition callbacksExtend (f f' : @dataFamily M) : Prop :=
  forall (l : Z) (fns : list Callback), callbacks f !! l = Some fns ->
    exists more, callbacks f' !! l = Some (fns ++ more).

(** The admission gate of [Flush] agrees with the call in flight: without a
    running call the gate is open and nothing is counted; with one, the gate
    is closed, one flush is counted, and the family holds the memory database
    and the snapshot of that call. *)
Definition flushGate (sys : @System M) : Prop :=
  match flushCall sys with
  | None => isFlushing (fam sys) = false /\ flushCondition (fam sys) = 0
  | Some c =>
      isFlushing (fam sys) = true /\ flushCondition (fam sys) = 1 /\
      immutableMemDB (fam sys) = Some (callWaitingFlushMemDB c) /\
      immutableSeq (fam sys) = Some (callImmutableSeq c)
  end.

(** Every persisted sequence is at most the sequence of its leader. *)
Definition persistedBelowSeq (f : @dataFamily M) : Prop :=
  forall (l p : Z), persistSeq f !! l = Some p ->
    exists s, seq f !! l = Some s /\ p <= s.

(** The calls that start or perform a disk write of a memory database. *)
Definition isDiskWrite (ev : Event) : bool :=
  match ev with
  | EvMarkReadOnly | EvFlushFamilyTo _ => true
  | _ => false
  end.

(** The disk write of [o] goes through. *)
Definition writeSucceeds (o : FlushOutcome) : Prop :=
  newMetricDataFlusherErr o = None /\ FlushFamilyToErr o = None.

Definition isFlushFamilyTo (ev : Event) : bool :=
  match ev with EvFlushFamilyTo _ => true | _ => false end.

(** How many times [FlushFamilyTo] has been called so far. *)
Definition flushWrites (f : @dataFamily M) : nat :=
  length (List.filter isFlushFamilyTo (events f)).

End Invariants.

(** ** The query path

    [Filter] reads the two memory databases under the mutex and then the
    files of the kv family through a snapshot.  The collaborators ([Filter]
    of a memory database, the snapshot, the readers of a table, the package
    variables [newReaderFunc] and [newFilterFunc], the overlap test of slot
    ranges) are the fields of [QueryEnv]; each returns the pair that the Go
    call returns.  A [nil] slice is the empty list.  The calls on the
    snapshot are returned as a list of [QueryEvent]. *)

(** The conversion [uint32(x)]. *)
Definition uint32 (x : Z) : Z := x mod 4294967296.

(** [timeutil.SlotRange]. *)
Record SlotRange := mkSlotRange {
  slotStart : Z;
  slotEnd : Z
}.

(** [flow.ShardExecuteContext], reduced to what [Filter] reads; the series
    ids and the fields are handed on to the file filter as they are. *)
Record ShardExecuteContext := mkCtx {
  MetricID : Z;
  CalcSourceSlotRange : Z -> SlotRange;
  SeriesIDsAfterFiltering : list Z;
  Fields : list Z
}.

(** [table.Reader]: [Path()] and [Get(key)], a value with an error. *)
Record Reader := mkReader {
  Path : string;
  Get : Z -> list Z * option error
}.

Inductive QueryEvent :=
| QMemFilter (immutable : bool)
| QGetSnapshot
| QFindReaders (metricKey : Z)
| QFileFilter
| QSnapshotClose.

Definition isGetSnapshot (ev : QueryEvent) : bool :=
  match ev with QGetSnapshot => true | _ => false end.

Definition isSnapshotClose (ev : QueryEvent) : bool :=
  match ev with QSnapshotClose => true | _ => false end.

Section Query.

Context {M : Type} `{MemoryDatabase M} {RS MR : Type}.

Record QueryEnv := mkQueryEnv {
  memDBFilter : M -> ShardExecuteContext -> list RS * option error;
  FindReaders : Z -> list Reader * option error;
  newReaderFunc : string -> list Z -> MR + error;
  GetTimeRange : MR -> SlotRange;
  Overlap : SlotRange -> SlotRange -> bool;
  newFilterFunc : Z -> list MR -> list Z -> list Z -> list RS * option error;
  timeRangeStart : Z
}.

(** The closure [memFilter] of [memoryFilter]: on success the result sets of
    [memDB] are appended to [resultSet]. *)
Definition memFilter (env : QueryEnv) (ctx : ShardExecuteContext) (memDB : M)
    (resultSet : list RS) : list RS * option error :=
  match memDBFilter env memDB ctx with
  | (_, Some err) => (resultSet, Some err)
  | (rs, None) => (resultSet ++ rs, None)
  end.

(** [memoryFilter]: the mutable memory database, then the immutable one; an
    error returns [nil, err]. *)
Definition memoryFilter (env : QueryEnv) (ctx : ShardExecuteContext)
    (f : @dataFamily M) : (list RS * option error) * list QueryEvent :=
  let r1 :=
    match mutableMemDB f with
    | Some db => (memFilter env ctx db [], [QMemFilter false])
    | None => (([], None), [])
    end in
  match r1 with
  | ((_, Some err), evs) => (([], Some err), evs)
  | ((rs1, None), evs) =>
      match immutableMemDB f with
      | Some db =>
          match memFilter env ctx db rs1 with
          | (_, Some err) => (([], Some err), evs ++ [QMemFilter true])
          | (rs2, None) => ((rs2, None), evs ++ [QMemFilter true])
          end
      | None => ((rs1, None), evs)
      end
  end.

(** The loop [for _, reader := range readers] of [fileFilter]:
    [metricReaders] collects the readers built so far; a reader without the
    metric is skipped, a reader that cannot be built ends the loop with its
    error. *)
Fixpoint selectReaders (env : QueryEnv) (metricKey : Z)
    (querySlotRange : SlotRange) (readers : list Reader)
    (metricReaders : list MR) : list MR + error :=
  match readers with
  | [] => inl metricReaders
  | reader :: rest =>
      match Get reader metricKey with
      | (_, Some err0) =>
          selectReaders env metricKey querySlotRange rest metricReaders
      | (value, None) =>
          match newReaderFunc env (Path reader) value with
          | inr err => inr err
          | inl r =>
              if Overlap env (GetTimeRange env r) querySlotRange then
                selectReaders env metricKey querySlotRange rest
                  (metricReaders ++ [r])
              else
                selectReaders env metricKey querySlotRange rest metricReaders
          end
      end
  end.

(** Whether the deferred function of [fileFilter] closes the snapshot:
    [err != nil || len(resultSet) == 0]. *)
Definition closesSnapshot (r : list RS * option error) : bool :=
  failed r.2 || match r.1 with [] => true | _ :: _ => false end.

(** [fileFilter]. *)
Definition fileFilter (env : QueryEnv) (ctx : ShardExecuteContext)
    (f : @dataFamily M) : (list RS * option error) * list QueryEvent :=
  let metricKey := uint32 (MetricID ctx) in
  let body :=
    match FindReaders env metricKey with
    | (_, Some err) => (([], Some err), [])
    | (readers, None) =>
        let querySlotRange := CalcSourceSlotRange ctx (familyTime f) in
        match selectReaders env metricKey querySlotRange readers [] with
        | inr err => (([], Some err), [])
        | inl [] => (([], None), [])
        | inl (r :: rs) =>
            (newFilterFunc env (timeRangeStart env) (r :: rs)
               (SeriesIDsAfterFiltering ctx) (Fields ctx),
             [QFileFilter])
        end
    end in
  (body.1,
   [QGetSnapshot; QFindReaders metricKey] ++ body.2 ++
   (if closesSnapshot body.1 then [QSnapshotClose] else [])).

(** [Filter]. *)
Definition Filter (env : QueryEnv) (ctx : ShardExecuteContext)
    (f : @dataFamily M) : (list RS * option error) * list QueryEvent :=
  match memoryFilter env ctx f with
  | ((_, Some err), evs) => (([], Some err), evs)
  | ((memRS, None), evs) =>
      match fileFilter env ctx f with
      | ((_, Some err), evs2) => (([], Some err), evs ++ evs2)
      | ((fileRS, None), evs2) => (([] ++ memRS ++ fileRS, None), evs ++ evs2)
      end
  end.

(** The readers that hold the metric, as path and value, in table order. *)
Definition readable (metricKey : Z) (readers : list Reader)
    : list (string * list Z) :=
  omap (fun reader =>
          match Get reader metricKey with
          | (value, None) => Some (Path reader, value)
          | (_, Some _) => None
          end) readers.

End Query.

End tsdb.

Module coordinator.

Definition error : Type := string.

(** [masterpkg.StorageCluster], reduced to [FlushDatabase(databaseName)]. *)
Record StorageCluster := mkStorageCluster {
  storageFlushDatabase : string -> option error
}.

(** [masterpkg.StateManager], reduced to [GetStorageCluster(name)]; [None] is
    the [nil] storage cluster. *)
Record StateManager := mkStateManager {
  GetStorageCluster : string -> option StorageCluster
}.

(** The struct [master]: what [elect.IsMaster()] answers, and [stateMgr],
    which is [nil] until [OnFailOver] has succeeded. *)
Record master := mkMaster {
  electIsMaster : bool;
  stateMgr : option StateManager
}.

(** A call either returns its [error] or panics (method call on a [nil]
    interface). *)
Inductive Result :=
| Return (err : option error)
| Panic.

Section Master.

(** [constants.ErrNoStorageCluster], declared outside this file. *)
Variable ErrNoStorageCluster : error.

Definition IsMaster (m : master) : bool := electIsMaster m.

(** [master.FlushDatabase]. *)
Definition FlushDatabase (cluster databaseName : string) (m : master) : Result :=
  if IsMaster m then
    match stateMgr m with
    | None => Panic
    | Some mgr =>
        match GetStorageCluster mgr cluster with
        | None => Return (Some ErrNoStorageCluster)
        | Some storage => Return (storageFlushDatabase storage databaseName)
        end
    end
  else Return None.

End Master.

(** ** Fail-over and resignation

    [OnFailOver] and [OnResignation] work on [stateMachineFct] as well; the
    struct of [master] above is the part that [FlushDatabase] reads and is
    kept as [node].  The calls made on the state manager and on the state
    machine factory are recorded in [calls]. *)

(** [masterpkg.StateMachineFactory], reduced to what [Start()] returns. *)
Record StateMachineFactory := mkFactory {
  factoryStart : option error
}.

Inductive Call :=
| CallSetStateMachineFactory (mgr : StateManager) (fct : StateMachineFactory)
| CallStart (fct : StateMachineFactory)
| CallStop (fct : StateMachineFactory)
| CallClose (mgr : StateManager).

Definition isStop (c : Call) : bool :=
  match c with CallStop _ => true | _ => false end.

Definition isCloseCall (c : Call) : bool :=
  match c with CallClose _ => true | _ => false end.

Record runtime := mkRuntime {
  node : master;
  stateMachineFct : option StateMachineFactory;
  calls : list Call
}.

(** [NewMaster]: nothing is built before the first fail-over. *)
Definition NewMaster (isMaster : bool) : runtime :=
  mkRuntime (mkMaster isMaster None) None [].

(** [OnFailOver].  [newStateMgr] and [newFct] are what [NewStateManager] and
    [NewStateMachineFactory] return.  The deferred function runs after the
    result is computed: on an error it stops the new factory, closes the new
    state manager and clears [stateMachineFct]; otherwise it installs both.
    The error is [fmt.Errorf("start master state machine error:%s", err)]. *)
Definition OnFailOver (newStateMgr : StateManager) (newFct : StateMachineFactory)
    (rt : runtime) : option error * runtime :=
  let calls1 :=
    calls rt ++ [CallSetStateMachineFactory newStateMgr newFct; CallStart newFct] in
  match factoryStart newFct with
  | Some err =>
      (Some (String.append "start master state machine error:" err),
       mkRuntime (node rt) None
         (calls1 ++ [CallStop newFct; CallClose newStateMgr]))
  | None =>
      (None,
       mkRuntime (mkMaster (electIsMaster (node rt)) (Some newStateMgr))
         (Some newFct) calls1)
  end.

(** [OnResignation]. *)
Definition OnResignation (rt : runtime) : runtime :=
  let stops :=
    match stateMachineFct rt with
    | Some fct => [CallStop fct]
    | None => []
    end in
  let closes :=
    match stateMgr (node rt) with
    | Some mgr => [CallClose mgr]
    | None => []
    end in
  mkRuntime (node rt) None (calls rt ++ stops ++ closes).

(** What the election asks of its listener, in the order it asks. *)
Inductive Transition :=
| FailOver (newStateMgr : StateManager) (newFct : StateMachineFactory)
| Resign.

Definition transit (t : Transition) (rt : runtime) : runtime :=
  match t with
  | FailOver mgr fct => (OnFailOver mgr fct rt).2
  | Resign => OnResignation rt
  end.

Fixpoint transitAll (ts : list Transition) (rt : runtime) : runtime :=
  match ts with
  | [] => rt
  | t :: rest => transitAll rest (transit t rt)
  end.

End coordinator.

(** * A test double and the scenarios used as concrete inputs *)

Module scenario.

Import tsdb.

(** A memory database in the manner of the generated mock: it keeps the rows
    it accepted, refuses rows once read-only and rows without fields, and
    reports sixteen bytes per row. *)
Record mockMemDB := mkMock {
  mockRows : list StorageRow;
  mockReadOnly : bool;
  mockUptime : Z
}.

Definition mockWriteRow (db : mockMemDB) (row : StorageRow)
    : mockMemDB * (Z * option error) :=
  if mockReadOnly db then (db, (0, Some "read only"%string))
  else
    match FieldIDs row with
    | [] => (db, (0, Some "no field"%string))
    | _ :: _ =>
        (mkMock (mockRows db ++ [row]) (mockReadOnly db) (mockUptime db),
         (16, None))
    end.

#[export] Instance mockMemoryDatabase : MemoryDatabase mockMemDB := {|
  Size db := Z.of_nat (length (mockRows db));
  MemSize db := 16 * Z.of_nat (length (mockRows db));
  Uptime db := mockUptime db;
  MarkReadOnly db := mkMock (mockRows db) true (mockUptime db);
  WriteRow := mockWriteRow
|}.

Definition mockNewMemoryDB (familyTime0 : Z) : mockMemDB + error :=
  inl (mkMock [] false 0).

Definition failNewMemoryDB (familyTime0 : Z) : mockMemDB + error :=
  inr "out of memory"%string.

(** Slot of a timestamp inside the family window. *)
Definition mockCalcSlot (ts familyTime0 interval0 : Z) : Z :=
  (ts - familyTime0) / interval0.

(** A family at [familyTime = 0] with a ten second interval and nothing
    persisted. *)
Definition fresh : @dataFamily mockMemDB :=
  newDataFamily 10000 mockCalcSlot 0 ∅.

Definition row (ts : Z) : StorageRow := mkRow true ts 0 [1].

Definition threeRows : list StorageRow := [row 1000; row 5000; row 9000].

(** Three rows, of which the first is not writable and the second has no
    field. *)
Definition mixedRows : list StorageRow :=
  [mkRow false 1000 0 [1]; mkRow true 5000 0 []; row 9000].

(** "Basic write+flush" up to the flush: three rows, then sequence 10 of
    leader 1 committed. *)
Definition written10 : @dataFamily mockMemDB :=
  CommitSequence 1 10 (WriteRows mockNewMemoryDB threeRows fresh).2.

(** "Ack registration ordering" up to the flush: callback 7 registered for
    leader 1, rows written, sequence 5 committed. *)
Definition acked5 : @dataFamily mockMemDB :=
  CommitSequence 1 5
    (WriteRows mockNewMemoryDB threeRows (AckSequence 1 7%nat fresh)).2.

(** A disk write that fails. *)
Definition flushWriteFails : FlushOutcome :=
  mkOutcome None (Some "disk full"%string) None.

(** The memory database of [written10]. *)
Definition written10DB : mockMemDB :=
  mkMock [row 1000; row 5000; row 9000] false 0.

(** A commit that lands while a flush is writing: the flush takes its
    snapshot, sequence 11 of leader 1 is validated and committed after its
    row is written, then the flush writes and commits. *)
Definition commitDuringFlush : list (@Step mockMemDB) :=
  [StepFlushSwap; StepOp (OpValidateSequence 1 11);
   StepOp (OpWriteRows mockNewMemoryDB [row 2000]);
   StepOp (OpCommitSequence 1 11);
   StepFlushWrite flushOK; StepFlushCommit].

(** A schedule, run from [written10], in which a flush is overtaken by a
    callback registration, a write and the first commit of leader 2, and is
    followed by a commit of leader 1 and a flush that fails. *)
Definition admissibleSchedule : list (@Step mockMemDB) :=
  [StepFlushSwap; StepOp (OpAckSequence 1 7%nat);
   StepOp (OpWriteRows mockNewMemoryDB [row 2000]);
   StepOp (OpCommitSequence 2 3);
   StepFlushWrite flushOK; StepOp (OpFlush flushOK); StepFlushCommit;
   StepOp (OpValidateSequence 1 11); StepOp (OpCommitSequence 1 11);
   StepOp (OpFlush flushWriteFails)].

(** A flush overtaken by the registration of callback 8 for leader 2 and by
    the first commit of leader 2. *)
Definition ackOutsideSnapshot : list (@Step mockMemDB) :=
  [StepFlushSwap; StepOp (OpAckSequence 2 8%nat);
   StepOp (OpWriteRows mockNewMemoryDB [row 2000]);
   StepOp (OpCommitSequence 2 3);
   StepFlushWrite flushOK; StepFlushCommit].

(** A schedule that commits a smaller sequence after a larger one. *)
Definition unvalidatedSchedule : list (@Step mockMemDB) :=
  [StepOp (OpCommitSequence 1 10); StepOp (OpCommitSequence 1 5)].

Definition storage1 : coordinator.StorageCluster :=
  coordinator.mkStorageCluster
    (fun db => if String.eqb db "db1" then None else Some "unknown database"%string).

Definition stateMgr1 : coordinator.StateManager :=
  coordinator.mkStateManager
    (fun name => if String.eqb name "cluster1" then Some storage1 else None).

(** Thresholds that the memory database of [written10] has reached. *)
Definition eagerConfig : TSDBConfig := mkTSDB 0 1024.

(** [written10] after a flush whose disk write failed. *)
Definition failed10 : @dataFamily mockMemDB :=
  (Flush flushWriteFails written10).2.

(** [written10] after a [Close] that went through. *)
Definition closed10 : @dataFamily mockMemDB :=
  default written10 (snd <$> Close flushOK flushOK written10).

(** The memory database that the first write on [fresh] creates, and the
    family holding it. *)
Definition created : @dataFamily mockMemDB :=
  (GetOrCreateMemoryDatabase mockNewMemoryDB 0 fresh).2.

(** A family created over a kv family that had persisted sequence 10 of
    leader 1. *)
Definition restored : @dataFamily mockMemDB :=
  newDataFamily 10000 mockCalcSlot 0 {[1 := 10]}.

(** What other goroutines may try after a failed flush. *)
Definition afterFailure : list (@Step mockMemDB) :=
  [StepOp (OpWriteRows mockNewMemoryDB [row 2000]);
   StepOp (OpCommitSequence 1 11); StepOp (OpFlush flushOK);
   StepFlushSwap; StepFlushWrite flushOK; StepFlushCommit;
   StepOp (OpAckSequence 1 7%nat)].

(** Collaborators of the query path: a memory database answers with the
    timestamps of its rows; a metric reader is its slot range, read from the
    first two numbers of the stored value; the file filter answers with the
    start slots of its readers. *)
Definition mockOverlap (a b : SlotRange) : bool :=
  bool_decide (slotStart a <= slotEnd b /\ slotStart b <= slotEnd a).

Definition mockNewReader (path : string) (value : list Z) : SlotRange + error :=
  match value with
  | a :: b :: _ => inl (mkSlotRange a b)
  | _ => inr "corrupt block"%string
  end.

Definition tableReaders (metricKey : Z) : list Reader * option error :=
  ([mkReader "1.sst" (fun _ => ([0; 5], None));
    mkReader "2.sst" (fun _ => ([], Some "not found"%string));
    mkReader "3.sst" (fun _ => ([40; 50], None));
    mkReader "4.sst" (fun _ => ([8; 12], None))], None).

Definition corruptReaders (metricKey : Z) : list Reader * option error :=
  ([mkReader "1.sst" (fun _ => ([0; 5], None));
    mkReader "5.sst" (fun _ => ([7], None));
    mkReader "4.sst" (fun _ => ([8; 12], None))], None).

Definition queryEnv (findReaders : Z -> list Reader * option error)
    : @QueryEnv mockMemDB Z SlotRange :=
  mkQueryEnv (fun db _ => (map Timestamp (mockRows db), None))
    findReaders mockNewReader (fun r => r) mockOverlap
    (fun _ mrs _ _ => (map slotStart mrs, None)) 0.

(** A query for metric 7 over the slots 0 to 10 of the family. *)
Definition query7 : ShardExecuteContext :=
  mkCtx 7 (fun _ => mkSlotRange 0 10) [1; 2] [1].

Definition startsFactory : coordinator.StateMachineFactory :=
  coordinator.mkFactory None.

Definition brokenFactory : coordinator.StateMachineFactory :=
  coordinator.mkFactory (Some "no repo"%string).

(** A node that wins the election, resigns, and fails to start its state
    machine when it wins again. *)
Definition electionHistory : list coordinator.Transition :=
  [coordinator.FailOver stateMgr1 startsFactory; coordinator.Resign;
   coordinator.FailOver stateMgr1 brokenFactory; coordinator.Resign].

End scenario.

(** * Properties of the data family *)

Import tsdb.

Section FamilyProperties.

Context {M : Type} `{MemoryDatabase M}.

Implicit Types (f : @dataFamily M) (l s : Z) (fn : Callback).

(** ** Sequences *)

(** C10.  [CommitSequence l s] stores [s] for [l] whatever the family holds:
    the entry of [l] is [s] afterwards (also when that lowers it, and when [l]
    had no entry), no other leader and no other field changes; from then on
    [ValidateSequence l] compares against [s] and [AckSequence l] calls the
    callback at registration, with [s]. *)
Theorem CommitSequence_stores_unconditionally l s f :
  let f' := CommitSequence l s f in
  seq f' = <[l := s]> (seq f) /\
  seq f' !! l = Some s /\
  (forall l', l' <> l -> seq f' !! l' = seq f !! l') /\
  persistSeq f' = persistSeq f /\ callbacks f' = callbacks f /\
  events f' = events f /\
  (forall s', ValidateSequence l s' f' = bool_decide (s' > s)) /\
  (forall fn, events (AckSequence l fn f') = events f ++ [EvAck fn s]).
Proof.
  cbn. split_and!; try reflexivity.
  - apply lookup_insert_eq.
  - intros l' Hne. by apply lookup_insert_ne.
  - intros s'. unfold ValidateSequence. cbn. by rewrite lookup_insert_eq.
  - intros fn. unfold AckSequence. cbn. by rewrite lookup_insert_eq.
Qed.

(** C8.  [ValidateSequence l s] answers [true] exactly when [s] is greater
    than the entry of [l], should there be one (so always for a leader without
    entry); as an operation it leaves the family as it found it, so asking
    again gives the same answer. *)
Theorem ValidateSequence_pure_predicate l s f :
  (ValidateSequence l s f = true <->
   forall cur, seq f !! l = Some cur -> s > cur) /\
  (forall cur, seq f !! l = Some cur ->
     ValidateSequence l s f = bool_decide (s > cur)) /\
  (seq f !! l = None -> ValidateSequence l s f = true) /\
  (exec (OpValidateSequence l s) f).2 = f /\
  (exec (OpValidateSequence l s) (exec (OpValidateSequence l s) f).2).1 =
  (exec (OpValidateSequence l s) f).1.
Proof.
  unfold ValidateSequence. split_and!; try reflexivity.
  - destruct (seq f !! l) as [cur|] eqn:E.
    + rewrite bool_decide_eq_true. split.
      * intros Hgt cur' [= <-]. exact Hgt.
      * intros Hall. by apply Hall.
    + split; [intros _ cur' [=] | done].
  - by intros cur ->.
  - by intros ->.
Qed.

(** C6.  [AckSequence l fn] puts [fn] at the end of the callbacks of [l] and
    of no other leader; the calls it makes before returning are one call of
    [fn] with the sequence of [l] when [l] has an entry, and none otherwise.
    Nothing else changes. *)
Theorem AckSequence_registers_and_fires l fn f :
  let f' := AckSequence l fn f in
  callbacks f' !! l = Some (default [] (callbacks f !! l) ++ [fn]) /\
  (forall l', l' <> l -> callbacks f' !! l' = callbacks f !! l') /\
  events f' =
    events f ++ match seq f !! l with
                | Some cur => [EvAck fn cur]
                | None => []
                end /\
  seq f' = seq f /\ persistSeq f' = persistSeq f /\
  mutableMemDB f' = mutableMemDB f /\ immutableMemDB f' = immutableMemDB f.
Proof.
  unfold AckSequence. cbn.
  destruct (seq f !! l) as [cur|] eqn:E; cbn; rewrite ?app_nil_r;
    (split_and!; try reflexivity;
     [ apply lookup_insert_eq | intros l' Hne; by apply lookup_insert_ne ]).
Qed.

(** ** Flush admission *)

(** C5.  [NeedFlush] is [true] exactly when no flush is running, there is no
    immutable memory database, the mutable one exists with a positive size,
    and its uptime has reached the TTL or its memory size the maximum; and it
    is [false] while [isFlushing] is set, whatever the thresholds. *)
Theorem NeedFlush_iff (cfg : TSDBConfig) f :
  (NeedFlush cfg f = true <->
   isFlushing f = false /\ immutableMemDB f = None /\
   exists db, mutableMemDB f = Some db /\ Size db > 0 /\
     (Uptime db >= MutableMemDBTTL cfg \/ MemSize db >= MaxMemDBSize cfg)) /\
  (isFlushing f = true -> NeedFlush cfg f = false).
Proof.
  unfold NeedFlush, IsFlushing. split; [|by intros ->].
  destruct (isFlushing f).
  { split; [done | by intros [? _]]. }
  destruct (immutableMemDB f).
  { split; [done | by intros (_ & ? & _)]. }
  destruct (mutableMemDB f) as [db|].
  2: { split; [done | by intros (_ & _ & db & ? & _)]. }
  repeat case_bool_decide; split; try done;
    try (intros (_ & _ & db' & [= <-] & Hsize & Hthr); lia);
    intros _; (split_and!; [done | done |]);
    exists db; (split_and!; [done | lia |]); auto.
Qed.

(** ** The write path *)

(** What the loop of [WriteRows] does with a batch: every writable row, in
    order and with its slot set, is handed to [WriteRow]; each row that is not
    writable and each [WriteRow] that fails adds one to the failures, each
    [WriteRow] that succeeds one to the written metrics. *)
Lemma writeLoop_accounts (rows : list StorageRow) :
  forall (db : M) (total : Z) f,
  exists errs : list (option error),
    let r := writeLoop rows db total f in
    length errs = length (List.filter Writable rows) /\
    events r.2 =
      events f ++
      zip_with EvWriteRow (map (slotOf f) (List.filter Writable rows)) errs /\
    WriteMetricFailures (statistics r.2) =
      WriteMetricFailures (statistics f)
      + Z.of_nat (length (List.filter (fun x => negb (Writable x)) rows))
      + Z.of_nat (length (List.filter failed errs)) /\
    WriteMetrics (statistics r.2) =
      WriteMetrics (statistics f)
      + Z.of_nat (length (List.filter (fun e => negb (failed e)) errs)) /\
    seq r.2 = seq f /\ persistSeq r.2 = persistSeq f /\
    callbacks r.2 = callbacks f /\ immutableMemDB r.2 = immutableMemDB f /\
    mutableMemDB r.2 = mutableMemDB f /\ isFlushing r.2 = isFlushing f.
Proof.
  induction rows as [|row rest IH]; intros db total f.
  - exists []. cbn. rewrite app_nil_r. split_and!; try reflexivity; lia.
  - cbn [writeLoop List.filter]. destruct (Writable row) eqn:Hw; cbn [negb].
    + destruct (WriteRow db (slotOf f row)) as [db' [size [err|]]] eqn:Hwr.
      * destruct (IH db' total
                    (addStat (dWriteMetricFailures 1)
                       (emit [EvWriteRow (slotOf f row) (Some err)] f)))
          as (errs & Hlen & Hev & Hfail & Hok & Hrest).
        exists (Some err :: errs). cbn zeta in *.
        split; [cbn; lia|]. split.
        { rewrite Hev. cbn. by rewrite <- app_assoc. }
        split; [rewrite Hfail; cbn; lia|].
        split; [rewrite Hok; cbn; lia|]. exact Hrest.
      * destruct (IH db' (total + size)
                    (addStat (dWriteFields (Z.of_nat (length (FieldIDs (slotOf f row)))))
                       (addStat (dWriteMetrics 1)
                          (emit [EvWriteRow (slotOf f row) None] f))))
          as (errs & Hlen & Hev & Hfail & Hok & Hrest).
        exists (None :: errs). cbn zeta in *.
        split; [cbn; lia|]. split.
        { rewrite Hev. cbn. by rewrite <- app_assoc. }
        split; [rewrite Hfail; cbn; lia|].
        split; [rewrite Hok; cbn; lia|]. exact Hrest.
    + destruct (IH db total (addStat (dWriteMetricFailures 1) f))
        as (errs & Hlen & Hev & Hfail & Hok & Hrest).
      exists errs. cbn zeta in *.
      split; [exact Hlen|]. split; [exact Hev|].
      split; [rewrite Hfail; cbn; lia|].
      split; [rewrite Hok; cbn; lia|]. exact Hrest.
Qed.

(** [GetOrCreateMemoryDatabase] touches neither the slot computation nor the
    write counters, and on success the family holds the database returned. *)
Lemma GetOrCreateMemoryDatabase_frame (newMemoryDBFunc : Z -> M + error) f :
  let r := GetOrCreateMemoryDatabase newMemoryDBFunc (familyTime f) f in
  slotOf r.2 = slotOf f /\
  WriteMetricFailures (statistics r.2) = WriteMetricFailures (statistics f) /\
  WriteMetrics (statistics r.2) = WriteMetrics (statistics f) /\
  (forall db, r.1 = inl db -> mutableMemDB r.2 = Some db).
Proof.
  unfold GetOrCreateMemoryDatabase.
  destruct (mutableMemDB f) as [db0|] eqn:Em; cbn.
  - split_and!; try reflexivity. by intros db [= <-].
  - destruct (newMemoryDBFunc (familyTime f)) as [newDB|err]; cbn;
      (split_and!; [reflexivity | lia | lia |]).
    + by intros db [= <-].
    + intros db [=].
Qed.

(** C7.  [WriteRows] on an empty batch returns [nil] and leaves the family as
    it is (no memory database created, no call made).  When the memory
    database has to be created and the creation fails, [WriteRows] returns
    that error, adds the length of the batch to the failures, writes no row
    and leaves the family without mutable memory database.  With a memory
    database at hand, [WriteRows] returns [nil]; every writable row is handed
    to [WriteRow] in batch order, whatever happened to the rows before it, and
    the failures grow by the rows that are not writable plus the [WriteRow]
    calls that returned an error. *)
Theorem WriteRows_error_handling (newMemoryDBFunc : Z -> M + error) f :
  WriteRows newMemoryDBFunc [] f = (None, f) /\
  (forall rows err,
     rows <> [] -> mutableMemDB f = None ->
     newMemoryDBFunc (familyTime f) = inr err ->
     let r := WriteRows newMemoryDBFunc rows f in
     r.1 = Some err /\
     WriteMetricFailures (statistics r.2) =
       WriteMetricFailures (statistics f) + Z.of_nat (length rows) /\
     WriteMetrics (statistics r.2) = WriteMetrics (statistics f) /\
     mutableMemDB r.2 = None /\
     events r.2 = events f ++ [EvNewMemoryDB (familyTime f)]) /\
  (forall rows db f1,
     rows <> [] ->
     GetOrCreateMemoryDatabase newMemoryDBFunc (familyTime f) f = (inl db, f1) ->
     let r := WriteRows newMemoryDBFunc rows f in
     r.1 = None /\
     exists errs : list (option error),
       length errs = length (List.filter Writable rows) /\
       events r.2 =
         events f1 ++
         zip_with EvWriteRow (map (slotOf f) (List.filter Writable rows)) errs /\
       WriteMetricFailures (statistics r.2) =
         WriteMetricFailures (statistics f)
         + Z.of_nat (length (List.filter (fun x => negb (Writable x)) rows))
         + Z.of_nat (length (List.filter failed errs)) /\
       WriteMetrics (statistics r.2) =
         WriteMetrics (statistics f)
         + Z.of_nat (length (List.filter (fun e => negb (failed e)) errs))).
Proof.
  split_and!.
  - reflexivity.
  - intros rows err Hne Hmut Hnew. destruct rows as [|row rest]; [done|].
    unfold WriteRows, GetOrCreateMemoryDatabase. rewrite Hmut, Hnew. cbn.
    rewrite Hmut. split_and!; try reflexivity; lia.
  - intros rows db f1 Hne Hget. destruct rows as [|row rest]; [done|].
    destruct (GetOrCreateMemoryDatabase_frame newMemoryDBFunc f)
      as (Hslot & Hfail0 & Hok0 & _).
    rewrite Hget in Hslot, Hfail0, Hok0. cbn [snd] in Hslot, Hfail0, Hok0.
    unfold WriteRows. rewrite Hget.
    destruct (writeLoop_accounts (row :: rest) db 0 f1)
      as (errs & Hlen & Hev & Hfail & Hok & _).
    destruct (writeLoop (row :: rest) db 0 f1) as [[db' total] f2].
    cbn [fst snd] in *. split; [reflexivity|].
    exists errs. rewrite <- Hslot, <- Hfail0, <- Hok0.
    split; [exact Hlen|]. split; [exact Hev|].
    split; [rewrite <- Hfail; cbn; lia | rewrite <- Hok; cbn; lia].
Qed.

(** ** The flush path *)

Lemma restoreSeq_union (immutableSeq0 cur : gmap Z Z) :
  restoreSeq immutableSeq0 cur = immutableSeq0 ∪ cur.
Proof.
  unfold restoreSeq.
  rewrite <- (list_to_map_to_list immutableSeq0) at 2.
  induction (map_to_list immutableSeq0) as [|[k v] rest IH]; cbn.
  - by rewrite (left_id_L ∅ (∪)).
  - by rewrite IH, insert_union_l.
Qed.

Lemma restoreSeq_self (m : gmap Z Z) : restoreSeq m m = m.
Proof. rewrite restoreSeq_union. apply (idemp_L (∪)). Qed.

(** [flushMemoryDatabase] only makes calls and moves counters. *)
Lemma flushMemoryDatabase_frame (o : FlushOutcome) (sequences : gmap Z Z)
    (memDB : M) f :
  let r := flushMemoryDatabase o sequences memDB f in
  seq r.2 = seq f /\ persistSeq r.2 = persistSeq f /\
  immutableSeq r.2 = immutableSeq f /\ immutableMemDB r.2 = immutableMemDB f /\
  mutableMemDB r.2 = mutableMemDB f /\ callbacks r.2 = callbacks f /\
  isFlushing r.2 = isFlushing f /\ flushCondition r.2 = flushCondition f.
Proof.
  unfold flushMemoryDatabase.
  destruct (newMetricDataFlusherErr o); [cbn; by repeat split|].
  destruct (FlushFamilyToErr o); cbn; by repeat split.
Qed.

(** The error that [flushMemoryDatabase] returns is the first failure among
    the creation of the data flusher and [FlushFamilyTo]. *)
Lemma flushMemoryDatabase_error (o : FlushOutcome) (sequences : gmap Z Z)
    (memDB : M) f :
  (flushMemoryDatabase o sequences memDB f).1 =
  match newMetricDataFlusherErr o with
  | Some err => Some err
  | None => FlushFamilyToErr o
  end.
Proof.
  unfold flushMemoryDatabase.
  destruct (newMetricDataFlusherErr o); [reflexivity|].
  by destruct (FlushFamilyToErr o).
Qed.

Lemma Flush_promote_Some f (db : M) :
  immutableMemDB f = None -> mutableMemDB f = Some db -> Size db <> 0 ->
  Flush_promote f =
  Some (set_immutableSeq (Some (seq f))
          (emit [EvMarkReadOnly]
             (set_mutableMemDB None
                (set_immutableMemDB (Some (MarkReadOnly db)) f))),
        seq f, MarkReadOnly db).
Proof.
  intros Hi Hm Hs. unfold Flush_promote, snapshotSeq. rewrite Hi, Hm.
  by rewrite bool_decide_eq_false_2.
Qed.

(** Whatever the outcome, a [Flush] that is not overtaken by another
    operation leaves every sequence where it was, and never writes
    [persistSeq]. *)
Lemma Flush_seq_persistSeq (o : FlushOutcome) f :
  seq (Flush o f).2 = seq f /\ persistSeq (Flush o f).2 = persistSeq f.
Proof.
  unfold Flush. destruct (isFlushing f); [done|].
  destruct (Flush_promote _) as [[[f1 iseq] db]|] eqn:Hp; [|done].
  assert (seq f1 = seq f /\ persistSeq f1 = persistSeq f /\ iseq = seq f)
    as (Hs1 & Hp1 & ->).
  { unfold Flush_promote in Hp. cbn in Hp.
    destruct (immutableMemDB f); [done|].
    destruct (mutableMemDB f); [|done].
    case_bool_decide; [done|]. by injection Hp as <- <- <-. }
  destruct (flushMemoryDatabase_frame o (seq f) db f1) as (Hs2 & Hp2 & _).
  destruct (flushMemoryDatabase o (seq f) db f1) as [[err|] f2]; cbn in *.
  - by rewrite Hs2, Hp2.
  - rewrite Hs2, Hs1, Hp2, Hp1. by rewrite restoreSeq_self.
Qed.

(** The state that a failed disk write leaves: the error is returned, the
    promoted, read-only memory database stays in [immutableMemDB] together
    with its sequence snapshot, [isFlushing] is [false] again, [seq] and
    [persistSeq] are what they were, and what was retained is what a later
    [Close] flushes. *)
Lemma Flush_failure_state (o : FlushOutcome) f (db : M) (err : error) :
  isFlushing f = false -> flushCondition f = 0 ->
  immutableMemDB f = None -> mutableMemDB f = Some db -> Size db <> 0 ->
  (newMetricDataFlusherErr o = Some err \/
   newMetricDataFlusherErr o = None /\ FlushFamilyToErr o = Some err) ->
  let r := Flush o f in
  r.1 = Some err /\
  immutableMemDB r.2 = Some (MarkReadOnly db) /\
  immutableSeq r.2 = Some (seq f) /\
  mutableMemDB r.2 = None /\
  isFlushing r.2 = false /\
  seq r.2 = seq f /\ persistSeq r.2 = persistSeq f /\
  (forall o1 o2,
     Close o1 o2 r.2 =
     match flushMemoryDatabase o1 (seq f) (MarkReadOnly db) r.2 with
     | (Some err1, f1) => Some (Some err1, f1)
     | (None, f1) =>
         Some (None, addStat (dActiveFamilies (-1)) (set_registered false f1))
     end).
Proof.
  intros Hfl Hfc Hi Hm Hs Herr. cbn zeta.
  destruct (Flush_seq_persistSeq o f) as [Hseq Hpers].
  revert Hseq Hpers. unfold Flush. rewrite Hfl.
  rewrite (Flush_promote_Some _ db) by done.
  cbn [seq set_flushCondition set_isFlushing].
  set (f1 := set_immutableSeq _ _).
  pose proof (flushMemoryDatabase_error o (seq f) (MarkReadOnly db) f1) as He.
  destruct (flushMemoryDatabase_frame o (seq f) (MarkReadOnly db) f1)
    as (_ & _ & Hfis & Hfim & Hfm & _ & _ & Hffc).
  destruct (flushMemoryDatabase o (seq f) (MarkReadOnly db) f1) as [r1 f2].
  cbn [fst snd] in *.
  assert (r1 = Some err) as ->
    by (destruct Herr as [E | [E1 E2]];
        [rewrite E in He | rewrite E1, E2 in He]; exact He).
  cbn [fst snd]. intros Hseq Hpers.
  split_and!; try done.
  intros o1 o2. unfold Close. cbn.
  rewrite Hffc, Hfim, Hfis. cbn. rewrite Hfc.
  rewrite bool_decide_eq_true_2 by lia.
  destruct (flushMemoryDatabase_frame o1 (seq f) (MarkReadOnly db) (Flush_done f2))
    as (_ & _ & _ & _ & Hfm1 & _).
  destruct (flushMemoryDatabase o1 (seq f) (MarkReadOnly db) (Flush_done f2))
    as [[err1|] f3]; [done|].
  cbn in Hfm1. by rewrite Hfm1, Hfm.
Qed.

(** With the gate open and an immutable memory database in place, the guard
    of [Flush] (line 243) returns [nil] and the family is what it was. *)
Lemma Flush_immutable_present (o : FlushOutcome) f :
  isFlushing f = false -> is_Some (immutableMemDB f) -> Flush o f = (None, f).
Proof.
  intros Hfl [db Hi]. unfold Flush. rewrite Hfl.
  unfold Flush_promote. cbn. rewrite Hi. f_equal.
  destruct f. cbn in *. subst.
  unfold Flush_done, set_isFlushing, set_flushCondition. cbn. f_equal. lia.
Qed.

(** C4, as the code has it.  Take a family with no flush running and a
    non-empty mutable memory database to promote, and let the disk write fail
    (the data flusher cannot be created, or [FlushFamilyTo] returns an error).
    Then [Flush] returns that error; the promoted, read-only memory database
    stays in [immutableMemDB] together with its sequence snapshot;
    [isFlushing] is [false] again; [seq] and [persistSeq] are what they were.
    What was retained is what a later [Close] flushes.  A later [Flush] does
    not retry: whatever the disk would answer, it returns [nil] and leaves
    the family as the failed flush left it. *)
Theorem Flush_write_failure (o : FlushOutcome) f (db : M) (err : error) :
  isFlushing f = false -> flushCondition f = 0 ->
  immutableMemDB f = None -> mutableMemDB f = Some db -> Size db <> 0 ->
  (newMetricDataFlusherErr o = Some err \/
   newMetricDataFlusherErr o = None /\ FlushFamilyToErr o = Some err) ->
  let r := Flush o f in
  r.1 = Some err /\
  immutableMemDB r.2 = Some (MarkReadOnly db) /\
  immutableSeq r.2 = Some (seq f) /\
  mutableMemDB r.2 = None /\
  isFlushing r.2 = false /\
  seq r.2 = seq f /\ persistSeq r.2 = persistSeq f /\
  (forall o1 o2,
     Close o1 o2 r.2 =
     match flushMemoryDatabase o1 (seq f) (MarkReadOnly db) r.2 with
     | (Some err1, f1) => Some (Some err1, f1)
     | (None, f1) =>
         Some (None, addStat (dActiveFamilies (-1)) (set_registered false f1))
     end) /\
  (forall o', Flush o' r.2 = (None, r.2)).
Proof.
  intros Hfl Hfc Hi Hm Hs Herr.
  destruct (Flush_failure_state o f db err Hfl Hfc Hi Hm Hs Herr)
    as (H1 & H2 & H3 & H4 & H5 & H6 & H7 & H8).
  cbn zeta in *. split_and!; try done.
  intros o'. apply Flush_immutable_present; [done | by eexists].
Qed.

(** The calls of a [Flush] that promotes and writes successfully: the
    callbacks are run by [flushMemoryDatabase] and once more by the loop that
    ends [Flush]. *)
Lemma Flush_success_events (o : FlushOutcome) f (db : M) :
  isFlushing f = false ->
  immutableMemDB f = None -> mutableMemDB f = Some db -> Size db <> 0 ->
  newMetricDataFlusherErr o = None -> FlushFamilyToErr o = None ->
  (Flush o f).1 = None /\
  immutableMemDB (Flush o f).2 = None /\
  events (Flush o f).2 =
    events f ++ [EvMarkReadOnly] ++ sequenceEvents (seq f) ++
    [EvFlushFamilyTo None] ++ ackFlushed (seq f) (callbacks f) ++
    [EvMemDBClose (memDBCloseErr o); EvRelease] ++
    ackCurrent (callbacks f) (seq f).
Proof.
  intros Hfl Hi Hm Hs Ho1 Ho2. unfold Flush. rewrite Hfl.
  rewrite (Flush_promote_Some _ db) by done.
  unfold flushMemoryDatabase. rewrite Ho1, Ho2. cbn.
  rewrite restoreSeq_self. split_and!; try reflexivity.
  by rewrite <- !app_assoc.
Qed.

(** ** Schedules *)

Lemma seqNonDecreasing_eq f f' : seq f' = seq f -> seqNonDecreasing f f'.
Proof. intros Heq l a Hl. exists a. rewrite Heq. split; [done | lia]. Qed.

Lemma seqNonDecreasing_trans f1 f2 f3 :
  seqNonDecreasing f1 f2 -> seqNonDecreasing f2 f3 -> seqNonDecreasing f1 f3.
Proof.
  intros H12 H23 l a Hl.
  destruct (H12 l a Hl) as (b & Hb & Hab).
  destruct (H23 l b Hb) as (c & Hc & Hbc).
  exists c. split; [done | lia].
Qed.

Lemma WriteRows_seq (newMemoryDBFunc : Z -> M + error)
    (rows : list StorageRow) f :
  seq (WriteRows newMemoryDBFunc rows f).2 = seq f.
Proof.
  unfold WriteRows. destruct rows as [|row rest]; [reflexivity|].
  assert (seq (GetOrCreateMemoryDatabase newMemoryDBFunc (familyTime f) f).2
          = seq f) as Hget.
  { unfold GetOrCreateMemoryDatabase. destruct (mutableMemDB f); [done|].
    by destruct (newMemoryDBFunc (familyTime f)). }
  destruct (GetOrCreateMemoryDatabase _ _ f) as [[db|err] f1];
    cbn [snd] in Hget; [|exact Hget].
  destruct (writeLoop_accounts (row :: rest) db 0 f1)
    as (errs & _ & _ & _ & _ & Hseq & _).
  destruct (writeLoop (row :: rest) db 0 f1) as [[db' total] f2].
  cbn in *. congruence.
Qed.

(** A validated commit raises the sequence of its leader and keeps the
    others. *)
Lemma CommitSequence_validated l s f :
  ValidateSequence l s f = true -> seqNonDecreasing f (CommitSequence l s f).
Proof.
  intros Hv l' a Hl'. cbn. destruct (decide (l' = l)) as [->|Hne].
  - exists s. rewrite lookup_insert_eq. split; [done|].
    unfold ValidateSequence in Hv. rewrite Hl' in Hv.
    apply bool_decide_eq_true in Hv. lia.
  - exists a. rewrite lookup_insert_ne by done. split; [done | lia].
Qed.

Lemma exec_seq (op : @Op M) f :
  seq (exec op f).2 =
  match op with
  | OpCommitSequence l s => <[l := s]> (seq f)
  | _ => seq f
  end.
Proof.
  destruct op as [mk rows|l s|l s|l fn|cfg| |o]; cbn [exec snd];
    try reflexivity.
  - apply WriteRows_seq.
  - unfold AckSequence. cbn. by destruct (seq f !! l).
  - apply Flush_seq_persistSeq.
Qed.

(** [Flush] is its three steps run back to back. *)
Lemma Flush_as_steps (o : FlushOutcome) f :
  fam (runSteps [StepFlushSwap; StepFlushWrite o; StepFlushCommit] (idle f))
  = (Flush o f).2.
Proof.
  unfold Flush. cbn. unfold stepFlushSwap. cbn.
  destruct (isFlushing f); [reflexivity|].
  destruct (Flush_promote _) as [[[f1 iseq] db]|]; [|reflexivity].
  unfold stepFlushWrite. cbn.
  by destruct (flushMemoryDatabase o iseq db f1) as [[err|] f2].
Qed.

(** One admissible step keeps the snapshot of a running flush current and
    lowers no sequence. *)
Lemma step_seq (st : @Step M) (sys : System) :
  snapshotCurrent sys ->
  commitValidated st sys = true -> commitOutsideSnapshot st sys = true ->
  snapshotCurrent (step st sys) /\
  seqNonDecreasing (fam sys) (fam (step st sys)).
Proof.
  intros Hinv Hval Hout. destruct st as [op| |o|]; cbn [step].
  - (* a whole operation *)
    pose proof (exec_seq op (fam sys)) as Hseq.
    destruct op as [mk rows|l s|l s|l fn|cfg| |o];
      try (split; [|by apply seqNonDecreasing_eq];
           intros c Hc l' b Hl'; cbn [fam flushCall] in *;
           rewrite Hseq; by eapply Hinv).
    cbn [commitValidated commitOutsideSnapshot] in *. split.
    + intros c Hc l' b Hl'. cbn [fam flushCall exec snd] in *.
      rewrite Hc in Hout. apply bool_decide_eq_true in Hout.
      cbn. rewrite lookup_insert_ne by congruence. by eapply Hinv.
    + by apply CommitSequence_validated.
  - (* the switch *)
    unfold stepFlushSwap. destruct (isFlushing (fam sys)) eqn:Hfl.
    { split; [done | by apply seqNonDecreasing_eq]. }
    unfold Flush_promote, snapshotSeq. cbn.
    destruct (immutableMemDB (fam sys));
      [split; [exact Hinv | by apply seqNonDecreasing_eq]|].
    destruct (mutableMemDB (fam sys));
      [|split; [exact Hinv | by apply seqNonDecreasing_eq]].
    case_bool_decide;
      [split; [exact Hinv | by apply seqNonDecreasing_eq]|].
    split; [|by apply seqNonDecreasing_eq].
    intros c [= <-] l b Hl. exact Hl.
  - (* the disk write *)
    unfold stepFlushWrite.
    destruct (flushCall sys) as [[iseq db [|]]|] eqn:Hc;
      try (split; [exact Hinv | by apply seqNonDecreasing_eq]).
    destruct (flushMemoryDatabase_frame o iseq db (fam sys)) as (Hseq & _).
    destruct (flushMemoryDatabase o iseq db (fam sys)) as [[err|] f2];
      cbn [snd] in Hseq.
    + split; [intros c [=] | by apply seqNonDecreasing_eq].
    + split; [|by apply seqNonDecreasing_eq].
      intros c [= <-] l b Hl. cbn [fam callImmutableSeq] in *.
      rewrite Hseq. by eapply Hinv.
  - (* the commit *)
    unfold stepFlushCommit.
    destruct (flushCall sys) as [[iseq db [|]]|] eqn:Hc;
      try (split; [exact Hinv | by apply seqNonDecreasing_eq]).
    split; [intros c [=]|].
    intros l a Hl. cbn. rewrite restoreSeq_union.
    destruct (iseq !! l) as [b|] eqn:Hsnap.
    + exists b. split; [by apply lookup_union_Some_l|].
      specialize (Hinv _ Hc l b Hsnap). cbn in Hinv.
      assert (a = b) as -> by congruence. lia.
    + exists a. split; [|lia]. by rewrite lookup_union_r.
Qed.

(** What the code keeps of the monotonicity of [seq].  Start from a family on
    which no flush is
    running and take any schedule of operations ([WriteRows],
    [ValidateSequence], [CommitSequence], [AckSequence], [NeedFlush],
    [MemDBSize], [Flush] in one piece) and of the three steps of a [Flush]
    that the others overtake, with any outcome of the disk write.  If every
    [CommitSequence l s] is made when [ValidateSequence l s] holds, and none
    is made for a leader that a running flush has snapshotted and not yet
    committed, then no sequence goes down: a leader that has sequence [a]
    before the schedule has some sequence [b >= a] after it. *)
Theorem seq_non_decreasing_admissible (steps : list (@Step M)) f :
  admissible steps (idle f) = true ->
  seqNonDecreasing f (fam (runSteps steps (idle f))).
Proof.
  assert (forall sys, snapshotCurrent sys -> admissible steps sys = true ->
            seqNonDecreasing (fam sys) (fam (runSteps steps sys))) as Hgen.
  { induction steps as [|st rest IH]; intros sys Hinv Hadm.
    - by apply seqNonDecreasing_eq.
    - cbn [admissible runSteps] in *.
      apply andb_prop in Hadm as [Hst Hrest].
      apply andb_prop in Hst as [Hval Hout].
      destruct (step_seq st sys Hinv Hval Hout) as [Hinv' Hmono].
      eapply seqNonDecreasing_trans; [exact Hmono | by apply IH]. }
  intros Hadm. apply (Hgen (idle f)); [|exact Hadm].
  intros c [=].
Qed.

End FamilyProperties.


(** * The scenarios, evaluated *)

Section Scenarios.

Import scenario.

Lemma written10_state :
  mutableMemDB written10 = Some written10DB /\
  immutableMemDB written10 = None /\ isFlushing written10 = false /\
  seq written10 !! 1 = Some 10 /\ persistSeq written10 !! 1 = None.
Proof. by vm_compute. Qed.

(** [CommitSequence] does not compare: in the schedule
    [CommitSequence(1, 10); CommitSequence(1, 5)], which breaks the caller
    contract, the sequence of leader 1 goes from 10 down to 5. *)
Lemma seq_monotone_counterexample :
  let sys1 := runSteps [StepOp (OpCommitSequence 1 10)] (idle fresh) in
  let sys2 := runSteps [StepOp (OpCommitSequence 1 5)] sys1 in
  fam (runSteps unvalidatedSchedule (idle fresh)) = fam sys2 /\
  seq (fam sys1) !! 1 = Some 10 /\
  seq (fam sys2) !! 1 = Some 5 /\
  ~ seqNonDecreasing (fam sys1) (fam sys2).
Proof.
  cbn zeta. split; [reflexivity|].
  split; [by vm_compute|]. split; [by vm_compute|].
  intros Hmono. destruct (Hmono 1 10) as (b & Hb & Hle); [by vm_compute|].
  vm_compute in Hb. injection Hb as <-. lia.
Qed.

Lemma seq_non_decreasing_admissible_witness :
  admissible admissibleSchedule (idle written10) = true /\
  seqNonDecreasing written10
    (fam (runSteps admissibleSchedule (idle written10))).
Proof.
  split; [by vm_compute|].
  apply (seq_non_decreasing_admissible admissibleSchedule written10).
  by vm_compute.
Defined.

(** What the admissible schedule does to leader 1 and leader 2. *)
Lemma admissibleSchedule_seq :
  let f' := fam (runSteps admissibleSchedule (idle written10)) in
  seq f' !! 1 = Some 11 /\ seq f' !! 2 = Some 3.
Proof. by vm_compute. Qed.

(** C1, evaluated on a commit that lands between the snapshot and the commit
    step of a flush.  The flush promotes the memory database and snapshots
    [1 -> 10]; [ValidateSequence(1, 11)] holds, a row is written and
    [CommitSequence(1, 11)] makes the sequence of leader 1 11; the disk write
    succeeds and the flush commits.  The sequence of leader 1 is then 10, the
    snapshot value and not the larger one, so that 11 validates again. *)
Lemma commitDuringFlush_restores_snapshot :
  let f' := fam (runSteps commitDuringFlush (idle written10)) in
  (callImmutableSeq <$>
     flushCall (runSteps (take 1 commitDuringFlush) (idle written10)))
    ≫= (.!! 1) = Some 10 /\
  commitValidated (StepOp (OpCommitSequence 1 11))
    (runSteps (take 3 commitDuringFlush) (idle written10)) = true /\
  seq (fam (runSteps (take 4 commitDuringFlush) (idle written10))) !! 1
    = Some 11 /\
  seq f' !! 1 = Some 10 /\
  immutableMemDB f' = None /\ isFlushing f' = false /\
  ValidateSequence 1 11 f' = true.
Proof. by vm_compute. Qed.

(** C2, evaluated on "Basic write+flush": after three rows, the commit of
    sequence 10 for leader 1 and a successful [Flush], the snapshot of the
    flush held [1 -> 10] and the immutable memory database is gone, but
    [persistSeq] has no entry for leader 1 (a Go read yields 0, not 10). *)
Lemma Flush_leaves_persistSeq_unrefreshed :
  let r := Flush flushOK written10 in
  r.1 = None /\ immutableMemDB r.2 = None /\ MemDBSize r.2 = 0 /\
  List.In (EvSequence 1 10) (events r.2) /\
  seq r.2 !! 1 = Some 10 /\
  persistSeq r.2 !! 1 = None.
Proof. cbn zeta. split_and!; try by vm_compute. vm_compute. tauto. Qed.

(** C3, evaluated on "Ack registration ordering": callback 7 is registered
    for leader 1 on a fresh family (no call), rows are written, sequence 5 is
    committed (no call), and one successful [Flush] calls it twice with 5. *)
Lemma Flush_fires_callback_twice :
  List.filter isAck (events acked5) = [] /\
  (Flush flushOK acked5).1 = None /\
  List.filter isAck (events (Flush flushOK acked5).2) =
    [EvAck 7%nat 5; EvAck 7%nat 5].
Proof. by vm_compute. Qed.

(** The loop that ends [Flush] ranges over every leader that has a sequence:
    leader 2 is not in the snapshot of the flush and its row is still in the
    mutable memory database, yet its callback is called, with 3. *)
Lemma Flush_acks_leader_outside_snapshot :
  let sys := runSteps (take 4 ackOutsideSnapshot) (idle written10) in
  let f' := fam (runSteps ackOutsideSnapshot (idle written10)) in
  (callImmutableSeq <$> flushCall sys) ≫= (.!! 2) = None /\
  List.filter isAck (events (fam sys)) = [] /\
  List.filter isAck (events f') = [EvAck 8%nat 3] /\
  MemDBSize f' = 16.
Proof. by vm_compute. Qed.

Lemma Flush_write_failure_witness :
  let r := Flush flushWriteFails written10 in
  r.1 = Some "disk full"%string /\
  immutableMemDB r.2 = Some (MarkReadOnly written10DB) /\
  isFlushing r.2 = false /\
  seq r.2 = seq written10 /\ persistSeq r.2 = persistSeq written10 /\
  Flush flushOK r.2 = (None, r.2).
Proof.
  destruct (Flush_write_failure flushWriteFails written10 written10DB
              "disk full"%string)
    as (H1 & H2 & _ & _ & H5 & H6 & H7 & _ & H9);
    [by vm_compute | by vm_compute | by vm_compute | by vm_compute
    | by vm_compute | right; by vm_compute |].
  cbn zeta. split_and!; [exact H1 | exact H2 | exact H5 | exact H6 | exact H7 |].
  apply H9.
Defined.

(** C4, counterexample to the retry by a later [Flush]: after a flush whose
    disk write failed, a [Flush] on a disk that now works finds the immutable
    memory database in place, returns [nil] and makes no call at all (nothing
    is written, the memory database stays where it is); the retained data is
    written by [Close]. *)
Lemma Flush_after_failure :
  let f1 := (Flush flushWriteFails written10).2 in
  (Flush flushOK f1).1 = None /\
  events (Flush flushOK f1).2 = events f1 /\
  immutableMemDB (Flush flushOK f1).2 = Some (MarkReadOnly written10DB) /\
  (fun r => (r.1, registered r.2)) <$> Close flushOK flushOK f1
    = Some (None, false).
Proof. by vm_compute. Qed.

Lemma WriteRows_error_handling_witness :
  (WriteRows failNewMemoryDB mixedRows fresh).1 = Some "out of memory"%string /\
  WriteMetricFailures (statistics (WriteRows failNewMemoryDB mixedRows fresh).2)
    = 3 /\
  (WriteRows mockNewMemoryDB mixedRows fresh).1 = None /\
  WriteMetricFailures (statistics (WriteRows mockNewMemoryDB mixedRows fresh).2)
    = 2 /\
  WriteMetrics (statistics (WriteRows mockNewMemoryDB mixedRows fresh).2) = 1.
Proof.
  destruct (WriteRows_error_handling failNewMemoryDB fresh) as (_ & Hfail & _).
  destruct (Hfail mixedRows "out of memory"%string) as (H1 & H2 & _);
    [done | by vm_compute | by vm_compute |].
  destruct (WriteRows_error_handling mockNewMemoryDB fresh) as (_ & _ & Hok).
  destruct (Hok mixedRows (mkMock [] false 0)
              (GetOrCreateMemoryDatabase mockNewMemoryDB 0 fresh).2)
    as (H3 & _); [done | by vm_compute |].
  split; [exact H1|]. split; [rewrite H2; by vm_compute|].
  split; [exact H3|]. by vm_compute.
Defined.

End Scenarios.

(** * The cluster master *)

(** C9.  [FlushDatabase cluster databaseName]: a node that is not master
    returns [nil]; a master whose state manager knows no storage cluster of
    that name returns [ErrNoStorageCluster]; a master whose state manager
    finds the storage cluster returns whatever the [FlushDatabase] of that
    storage cluster returns for [databaseName]. *)
Theorem FlushDatabase_dispatch (ErrNoStorageCluster : coordinator.error)
    (cluster databaseName : string) (m : coordinator.master) :
  (coordinator.IsMaster m = false ->
   coordinator.FlushDatabase ErrNoStorageCluster cluster databaseName m
   = coordinator.Return None) /\
  (forall mgr,
     coordinator.IsMaster m = true -> coordinator.stateMgr m = Some mgr ->
     coordinator.GetStorageCluster mgr cluster = None ->
     coordinator.FlushDatabase ErrNoStorageCluster cluster databaseName m
     = coordinator.Return (Some ErrNoStorageCluster)) /\
  (forall mgr storage,
     coordinator.IsMaster m = true -> coordinator.stateMgr m = Some mgr ->
     coordinator.GetStorageCluster mgr cluster = Some storage ->
     coordinator.FlushDatabase ErrNoStorageCluster cluster databaseName m
     = coordinator.Return
         (coordinator.storageFlushDatabase storage databaseName)).
Proof.
  unfold coordinator.FlushDatabase. split_and!.
  - by intros ->.
  - intros mgr -> -> ->. reflexivity.
  - intros mgr storage -> -> ->. reflexivity.
Qed.

Lemma FlushDatabase_dispatch_witness :
  coordinator.FlushDatabase "no storage cluster" "cluster1" "db1"
    (coordinator.mkMaster false (Some scenario.stateMgr1))
  = coordinator.Return None /\
  coordinator.FlushDatabase "no storage cluster" "cluster2" "db1"
    (coordinator.mkMaster true (Some scenario.stateMgr1))
  = coordinator.Return (Some "no storage cluster"%string) /\
  coordinator.FlushDatabase "no storage cluster" "cluster1" "db2"
    (coordinator.mkMaster true (Some scenario.stateMgr1))
  = coordinator.Return (Some "unknown database"%string).
Proof.
  split_and!.
  - by apply (FlushDatabase_dispatch "no storage cluster" "cluster1" "db1"
                (coordinator.mkMaster false (Some scenario.stateMgr1))).
  - by eapply (proj1 (proj2 (FlushDatabase_dispatch "no storage cluster"
                "cluster2" "db1"
                (coordinator.mkMaster true (Some scenario.stateMgr1))))).
  - by eapply (proj2 (proj2 (FlushDatabase_dispatch "no storage cluster"
                "cluster1" "db2"
                (coordinator.mkMaster true (Some scenario.stateMgr1))))
                scenario.stateMgr1 scenario.storage1).
Defined.

(** * Further properties of the flush path *)

Section FlushPathProperties.

Context {M : Type} `{MemoryDatabase M}.

Implicit Types (f : @dataFamily M) (l s : Z) (fn : Callback).

Lemma Flush_promote_frame f f1 (iseq : gmap Z Z) (db : M) :
  Flush_promote f = Some (f1, iseq, db) ->
  isFlushing f1 = isFlushing f /\ flushCondition f1 = flushCondition f /\
  persistSeq f1 = persistSeq f /\ callbacks f1 = callbacks f /\
  seq f1 = seq f /\ iseq = seq f /\
  immutableMemDB f1 = Some db /\ immutableSeq f1 = Some iseq /\
  mutableMemDB f1 = None /\ registered f1 = registered f /\
  statistics f1 = statistics f /\
  events f1 = events f ++ [EvMarkReadOnly].
Proof.
  unfold Flush_promote, snapshotSeq.
  destruct (immutableMemDB f); [done|].
  destruct (mutableMemDB f); [|done].
  case_bool_decide; [done|]. intros [= <- <- <-]. cbn. by split_and!.
Qed.

(** X1.  The deferred function of [Flush] runs on every path: whatever the outcome
    of the write, [Flush] returns with the gate [isFlushing] and the counter
    [flushCondition] as it found them. *)
Theorem Flush_gate_balanced (o : FlushOutcome) f :
  isFlushing (Flush o f).2 = isFlushing f /\
  flushCondition (Flush o f).2 = flushCondition f.
Proof.
  unfold Flush. destruct (isFlushing f) eqn:Hfl; [done|].
  destruct (Flush_promote _) as [[[f1 iseq] db]|] eqn:Hp.
  - apply Flush_promote_frame in Hp as (Hg & Hc & _). cbn in Hg, Hc.
    destruct (flushMemoryDatabase_frame o iseq db f1)
      as (_ & _ & _ & _ & _ & _ & Hg2 & Hc2).
    destruct (flushMemoryDatabase o iseq db f1) as [[err|] f2];
      cbn in *; split; try done; lia.
  - cbn. split; [done | lia].
Qed.

(** X2.  With the gate open and nothing to promote (an immutable memory database
    is still there, or there is no mutable one, or its size is zero), [Flush]
    returns [nil] and the family is exactly what it was: no call is made, no
    sequence, counter or memory database moves. *)
Theorem Flush_nothing_to_promote (o : FlushOutcome) f :
  isFlushing f = false ->
  (is_Some (immutableMemDB f) \/ mutableMemDB f = None \/
   exists db, mutableMemDB f = Some db /\ Size db = 0) ->
  Flush o f = (None, f).
Proof.
  intros Hfl Hcond. unfold Flush. rewrite Hfl.
  assert (Flush_promote
            (set_flushCondition (flushCondition f + 1) (set_isFlushing true f))
          = None) as ->.
  { unfold Flush_promote. cbn.
    destruct Hcond as [[db ->] | [-> | (db & -> & Hz)]]; [done | |].
    - by destruct (immutableMemDB f).
    - destruct (immutableMemDB f); [done|]. by rewrite bool_decide_eq_true_2. }
  f_equal. destruct f. cbn in *. subst.
  unfold Flush_done, set_isFlushing, set_flushCondition. cbn. f_equal. lia.
Qed.

(** X3.  When [NeedFlush] says so and the disk write succeeds, [Flush] returns
    [nil] and leaves the family without immutable and without mutable memory
    database ([MemDBSize] is 0), one memory database fewer is counted as
    active, and [NeedFlush] is [false] for every configuration. *)
Theorem NeedFlush_then_Flush (cfg : TSDBConfig) (o : FlushOutcome) f :
  NeedFlush cfg f = true ->
  newMetricDataFlusherErr o = None -> FlushFamilyToErr o = None ->
  let r := Flush o f in
  r.1 = None /\
  immutableMemDB r.2 = None /\ immutableSeq r.2 = None /\
  mutableMemDB r.2 = None /\ MemDBSize r.2 = 0 /\
  ActiveMemDBs (statistics r.2) = ActiveMemDBs (statistics f) - 1 /\
  List.In (EvFlushFamilyTo None) (events r.2) /\
  (forall cfg', NeedFlush cfg' r.2 = false).
Proof.
  intros Hneed Ho1 Ho2. cbn zeta.
  unfold NeedFlush, IsFlushing in Hneed.
  destruct (isFlushing f) eqn:Hfl; [done|].
  destruct (immutableMemDB f) eqn:Hi; [done|].
  destruct (mutableMemDB f) as [db|] eqn:Hm; [|done].
  case_bool_decide as Hsz; [done|].
  unfold Flush. rewrite Hfl.
  rewrite (Flush_promote_Some _ db) by (cbn; first [done | lia]).
  unfold flushMemoryDatabase. rewrite Ho1, Ho2. cbn.
  split_and!; try reflexivity.
  - lia.
  - rewrite !in_app_iff. cbn. tauto.
Qed.

Lemma sequenceEvents_no_ack (sequences : gmap Z Z) :
  List.filter isAck (sequenceEvents sequences) = [].
Proof.
  unfold sequenceEvents. by induction (map_to_list sequences) as [|p rest IH].
Qed.

(** X4.  On every path [flushMemoryDatabase] first records each pair of
    [sequences] in the flusher and ends by releasing the flusher, once: what
    it does in between contains neither a [Sequence] nor a [Release] call. *)
Theorem flushMemoryDatabase_releases_once (o : FlushOutcome)
    (sequences : gmap Z Z) (memDB : M) f :
  exists mid : list Event,
    events (flushMemoryDatabase o sequences memDB f).2 =
      events f ++ sequenceEvents sequences ++ mid ++ [EvRelease] /\
    Forall (fun ev => ev <> EvRelease /\ forall l s, ev <> EvSequence l s) mid.
Proof.
  unfold flushMemoryDatabase.
  destruct (newMetricDataFlusherErr o) as [err|].
  { exists []. cbn. split; [by rewrite <- app_assoc | constructor]. }
  destruct (FlushFamilyToErr o) as [err|].
  { exists [EvFlushFamilyTo (Some err)]. cbn. split.
    - by rewrite <- !app_assoc.
    - by repeat constructor. }
  exists ([EvFlushFamilyTo None] ++ ackFlushed sequences (callbacks f) ++
          [EvMemDBClose (memDBCloseErr o)]).
  cbn. split.
  - rewrite <- ?app_assoc. cbn. by rewrite <- ?app_assoc.
  - constructor; [done|]. apply Forall_app. split; [|by repeat constructor].
    unfold ackFlushed. apply Forall_forall. intros ev Hin.
    apply list_elem_of_In, in_flat_map in Hin as (p & _ & Hin).
    destruct (callbacks f !! p.1); [|done].
    apply in_map_iff in Hin as (fn & <- & _). done.
Qed.

(** X5.  A [flushMemoryDatabase] that returns an error has called no callback and
    has left the counters of active memory databases and of their total size
    alone; the failure counter moves only when it was [FlushFamilyTo] that
    failed, not when the data flusher could not be created. *)
Theorem flushMemoryDatabase_failure (o : FlushOutcome) (sequences : gmap Z Z)
    (memDB : M) f (err : error) :
  (flushMemoryDatabase o sequences memDB f).1 = Some err ->
  let f' := (flushMemoryDatabase o sequences memDB f).2 in
  List.filter isAck (events f') = List.filter isAck (events f) /\
  ActiveMemDBs (statistics f') = ActiveMemDBs (statistics f) /\
  MemDBTotalSize (statistics f') = MemDBTotalSize (statistics f) /\
  MemDBFlushFailures (statistics f') =
    MemDBFlushFailures (statistics f)
    + match newMetricDataFlusherErr o with Some _ => 0 | None => 1 end.
Proof.
  unfold flushMemoryDatabase.
  destruct (newMetricDataFlusherErr o) as [e1|].
  - intros _. cbn. rewrite !List.filter_app, sequenceEvents_no_ack. cbn.
    rewrite !app_nil_r. split_and!; try reflexivity; lia.
  - destruct (FlushFamilyToErr o) as [e2|]; [|done].
    intros _. cbn. rewrite !List.filter_app, sequenceEvents_no_ack. cbn.
    rewrite !app_nil_r. split_and!; try reflexivity; lia.
Qed.

(** X6.  A [flushMemoryDatabase] whose disk write succeeds returns [nil] also when
    closing the memory database fails, and the callbacks it calls are exactly
    those registered for a leader of [sequences], each with the sequence of
    that leader in [sequences]. *)
Theorem flushMemoryDatabase_acks (o : FlushOutcome) (sequences : gmap Z Z)
    (memDB : M) f :
  newMetricDataFlusherErr o = None -> FlushFamilyToErr o = None ->
  let r := flushMemoryDatabase o sequences memDB f in
  r.1 = None /\
  forall fn s,
    List.In (EvAck fn s) (events r.2) <->
    List.In (EvAck fn s) (events f) \/
    exists l fns, sequences !! l = Some s /\ callbacks f !! l = Some fns /\
                  List.In fn fns.
Proof.
  intros Ho1 Ho2. unfold flushMemoryDatabase. rewrite Ho1, Ho2. cbn.
  split; [reflexivity|]. intros fn s.
  rewrite !in_app_iff. cbn.
  assert (~ List.In (EvAck fn s) (sequenceEvents sequences)) as Hns.
  { unfold sequenceEvents. intros Hin.
    by apply in_map_iff in Hin as (p & Hp & _). }
  assert (List.In (EvAck fn s) (ackFlushed sequences (callbacks f)) <->
          exists l fns, sequences !! l = Some s /\
                        callbacks f !! l = Some fns /\ List.In fn fns) as Hack.
  { unfold ackFlushed. rewrite in_flat_map. split.
    - intros ([l s'] & Hin & Hev). cbn in Hev.
      apply list_elem_of_In, elem_of_map_to_list in Hin.
      destruct (callbacks f !! l) as [fns|] eqn:Hc; [|done].
      apply in_map_iff in Hev as (fn' & [= -> ->] & Hfn). eauto.
    - intros (l & fns & Hs & Hc & Hfn). exists (l, s). split.
      + by apply list_elem_of_In, elem_of_map_to_list.
      + cbn. rewrite Hc. apply in_map_iff. eauto. }
  rewrite <- Hack. intuition congruence.
Qed.

End FlushPathProperties.

(** * Further properties of the write path and of the sequences *)

Section WritePathProperties.

Context {M : Type} `{MemoryDatabase M}.

Implicit Types (f : @dataFamily M) (l s : Z).

Lemma writeLoop_frame (rows : list StorageRow) :
  forall (db : M) (total : Z) f,
    let r := writeLoop rows db total f in
    slotOf r.2 = slotOf f /\ immutableSeq r.2 = immutableSeq f /\
    flushCondition r.2 = flushCondition f /\ registered r.2 = registered f /\
    WriteBatches (statistics r.2) = WriteBatches (statistics f) /\
    ActiveMemDBs (statistics r.2) = ActiveMemDBs (statistics f).
Proof.
  induction rows as [|row rest IH]; intros db total f; cbn [writeLoop].
  - cbn. split_and!; reflexivity.
  - destruct (negb (Writable row)).
    + destruct (IH db total (addStat (dWriteMetricFailures 1) f))
        as (H1 & H2 & H3 & H4 & H5 & H6).
      cbn zeta. rewrite H1, H2, H3, H4, H5, H6. cbn.
      split_and!; try reflexivity; lia.
    + destruct (WriteRow db (slotOf f row)) as [db' [size [err|]]].
      * destruct (IH db' total
                    (addStat (dWriteMetricFailures 1)
                       (emit [EvWriteRow (slotOf f row) (Some err)] f)))
          as (H1 & H2 & H3 & H4 & H5 & H6).
        cbn zeta. rewrite H1, H2, H3, H4, H5, H6. cbn.
        split_and!; try reflexivity; lia.
      * destruct (IH db' (total + size)
                    (addStat (dWriteFields (Z.of_nat (length (FieldIDs (slotOf f row)))))
                       (addStat (dWriteMetrics 1)
                          (emit [EvWriteRow (slotOf f row) None] f))))
          as (H1 & H2 & H3 & H4 & H5 & H6).
        cbn zeta. rewrite H1, H2, H3, H4, H5, H6. cbn.
        split_and!; try reflexivity; lia.
Qed.

(** X7.  [WriteRows] works on the mutable memory database, the counters and
    nothing else: on every path the sequences, the persisted sequences, the
    callbacks, the immutable memory database with its snapshot, the flush gate
    and the registration are what they were. *)
Theorem WriteRows_frame (newMemoryDBFunc : Z -> M + error)
    (rows : list StorageRow) f :
  let f' := (WriteRows newMemoryDBFunc rows f).2 in
  seq f' = seq f /\ persistSeq f' = persistSeq f /\
  callbacks f' = callbacks f /\ immutableMemDB f' = immutableMemDB f /\
  immutableSeq f' = immutableSeq f /\ isFlushing f' = isFlushing f /\
  flushCondition f' = flushCondition f /\ registered f' = registered f.
Proof.
  unfold WriteRows. destruct rows as [|row rest]; [by cbn|].
  unfold GetOrCreateMemoryDatabase.
  destruct (mutableMemDB f) as [db|].
  - destruct (writeLoop_accounts (row :: rest) db 0 f)
      as (errs & _ & _ & _ & _ & Hs & Hp & Hc & Hi & _ & Hg).
    destruct (writeLoop_frame (row :: rest) db 0 f) as (_ & His & Hfc & Hr & _).
    destruct (writeLoop (row :: rest) db 0 f) as [[db' total] f2].
    cbn in *. by split_and!.
  - destruct (newMemoryDBFunc (familyTime f)) as [newDB|err]; [|by cbn].
    set (f1 := addStat _ _).
    destruct (writeLoop_accounts (row :: rest) newDB 0 f1)
      as (errs & _ & _ & _ & _ & Hs & Hp & Hc & Hi & _ & Hg).
    destruct (writeLoop_frame (row :: rest) newDB 0 f1)
      as (_ & His & Hfc & Hr & _).
    destruct (writeLoop (row :: rest) newDB 0 f1) as [[db' total] f2].
    cbn in *. by split_and!.
Qed.

(** X8.  [WriteRows] accounts for every row exactly once, on every path: the
    written metrics and the failures together grow by the length of the
    batch.  The batch itself is counted when, and only when, a non-empty batch
    found or created its memory database. *)
Theorem WriteRows_counts_every_row (newMemoryDBFunc : Z -> M + error)
    (rows : list StorageRow) f :
  let r := WriteRows newMemoryDBFunc rows f in
  WriteMetrics (statistics r.2) + WriteMetricFailures (statistics r.2) =
    WriteMetrics (statistics f) + WriteMetricFailures (statistics f)
    + Z.of_nat (length rows) /\
  WriteBatches (statistics r.2) =
    WriteBatches (statistics f)
    + match rows, r.1 with
      | _ :: _, None => 1
      | _, _ => 0
      end.
Proof.
  unfold WriteRows. destruct rows as [|row rest]; [cbn; lia|].
  set (rows := row :: rest).
  destruct (GetOrCreateMemoryDatabase_frame newMemoryDBFunc f)
    as (_ & Hfail0 & Hok0 & _).
  assert (WriteBatches
            (statistics
               (GetOrCreateMemoryDatabase newMemoryDBFunc (familyTime f) f).2)
          = WriteBatches (statistics f)) as Hb0.
  { unfold GetOrCreateMemoryDatabase. destruct (mutableMemDB f); [done|].
    destruct (newMemoryDBFunc (familyTime f)); cbn; lia. }
  destruct (GetOrCreateMemoryDatabase newMemoryDBFunc (familyTime f) f)
    as [[db|err] f1]; cbn [fst snd] in *.
  - destruct (writeLoop_accounts rows db 0 f1)
      as (errs & Hlen & _ & Hfail & Hok & _).
    destruct (writeLoop_frame rows db 0 f1) as (_ & _ & _ & _ & Hb & _).
    destruct (writeLoop rows db 0 f1) as [[db' total] f2].
    cbn [fst snd] in *. cbn.
    pose proof (List.filter_length Writable rows) as Hrows.
    pose proof (List.filter_length failed errs) as Herrs.
    assert (length rows = S (length rest)) as Hrest by reflexivity.
    split; lia.
  - cbn. subst rows. cbn [length]. split; lia.
Qed.

Lemma in_zip_with_EvWriteRow (row : StorageRow) (err : option error)
    (rows : list StorageRow) (errs : list (option error)) :
  List.In (EvWriteRow row err) (zip_with EvWriteRow rows errs) ->
  List.In row rows.
Proof.
  revert errs. induction rows as [|r rest IH]; intros [|e errs]; cbn; try done.
  intros [[= -> _] | Hin]; [by left | right; by eapply IH].
Qed.

(** X9.  Every row that [WriteRows] hands to [WriteRow] is a writable row of the
    batch, unchanged but for its slot index, and the slot index it carries is
    the 16-bit truncation of what the interval calculator returned, so it lies
    in [0, 65536) whatever the calculator answers. *)
Theorem WriteRows_slot_bounds (newMemoryDBFunc : Z -> M + error)
    (rows : list StorageRow) f (row : StorageRow) (err : option error) :
  List.In (EvWriteRow row err) (events (WriteRows newMemoryDBFunc rows f).2) ->
  List.In (EvWriteRow row err) (events f) \/
  (0 <= SlotIndex row < 65536 /\
   exists row0, List.In row0 rows /\ Writable row0 = true /\
     row = withSlotIndex
             (uint16 (CalcSlot f (Timestamp row0) (familyTime f) (interval f)))
             row0).
Proof.
  unfold WriteRows. destruct rows as [|r0 rest]; [by left|].
  set (rows := r0 :: rest).
  destruct (GetOrCreateMemoryDatabase_frame newMemoryDBFunc f)
    as (Hslot & _).
  assert (forall ev, List.In ev
            (events (GetOrCreateMemoryDatabase newMemoryDBFunc (familyTime f) f).2)
          -> List.In ev (events f) \/ ev = EvNewMemoryDB (familyTime f)) as Hev0.
  { unfold GetOrCreateMemoryDatabase. destruct (mutableMemDB f); [by left|].
    destruct (newMemoryDBFunc (familyTime f)); cbn; intros ev;
      rewrite in_app_iff; cbn; intuition. }
  destruct (GetOrCreateMemoryDatabase newMemoryDBFunc (familyTime f) f)
    as [[db|e] f1]; cbn [fst snd] in *.
  - destruct (writeLoop_accounts rows db 0 f1) as (errs & _ & Hev & _).
    destruct (writeLoop rows db 0 f1) as [[db' total] f2].
    cbn [fst snd] in *. cbn. rewrite Hev, in_app_iff.
    intros [Hin | Hin].
    + destruct (Hev0 _ Hin) as [? | [=]]. by left.
    + right. apply in_zip_with_EvWriteRow, in_map_iff in Hin
        as (row0 & <- & Hin).
      apply List.filter_In in Hin as [Hin Hw]. rewrite Hslot. split.
      * cbn. unfold uint16. apply Z.mod_pos_bound. lia.
      * exists row0. by split_and!.
  - cbn. intros Hin. destruct (Hev0 _ Hin) as [? | [=]]. by left.
Qed.

(** X10.  Once [GetOrCreateMemoryDatabase] has returned a memory database, a
    further call returns the same one and changes nothing: it does not even
    call the constructor, whatever that would answer. *)
Theorem GetOrCreateMemoryDatabase_idempotent
    (newMemoryDBFunc newMemoryDBFunc' : Z -> M + error) (t t' : Z) f f1 (db : M) :
  GetOrCreateMemoryDatabase newMemoryDBFunc t f = (inl db, f1) ->
  GetOrCreateMemoryDatabase newMemoryDBFunc' t' f1 = (inl db, f1).
Proof.
  unfold GetOrCreateMemoryDatabase.
  destruct (mutableMemDB f) as [db0|] eqn:Hm.
  - intros [= <- <-]. by rewrite Hm.
  - destruct (newMemoryDBFunc t) as [newDB|err]; [|done].
    intros [= <- <-]. reflexivity.
Qed.

(** X11.  Commits for different leaders can be made in either order, and of two
    commits for the same leader only the later one counts. *)
Theorem CommitSequence_compose l1 l2 s1 s2 f :
  (l1 <> l2 ->
   CommitSequence l1 s1 (CommitSequence l2 s2 f) =
   CommitSequence l2 s2 (CommitSequence l1 s1 f)) /\
  CommitSequence l1 s2 (CommitSequence l1 s1 f) = CommitSequence l1 s2 f.
Proof.
  unfold CommitSequence, set_seq. cbn. split.
  - intros Hne. f_equal. by apply insert_insert_ne.
  - f_equal. apply insert_insert_eq.
Qed.

End WritePathProperties.

(** * Further properties of [Close] *)

Section CloseProperties.

Context {M : Type} `{MemoryDatabase M}.

Implicit Types (f : @dataFamily M) (l s : Z).

Lemma filter_none {A} (P : A -> bool) (xs : list A) :
  Forall (fun x => P x = false) xs -> List.filter P xs = [].
Proof.
  induction 1 as [|x xs Hx _ IH]; [done|]. cbn. by rewrite Hx.
Qed.

Lemma sequenceEvents_shape (sequences : gmap Z Z) :
  Forall (fun ev => exists l s, ev = EvSequence l s) (sequenceEvents sequences).
Proof.
  unfold sequenceEvents. apply Forall_forall. intros ev Hin.
  apply list_elem_of_In, in_map_iff in Hin as (p & <- & _). eauto.
Qed.

Lemma ackFlushed_shape (sequences : gmap Z Z) (cbs : gmap Z (list Callback)) :
  Forall (fun ev => exists fn s, ev = EvAck fn s) (ackFlushed sequences cbs).
Proof.
  unfold ackFlushed. apply Forall_forall. intros ev Hin.
  apply list_elem_of_In, in_flat_map in Hin as (p & _ & Hin).
  destruct (cbs !! p.1); [|done].
  apply in_map_iff in Hin as (fn & <- & _). eauto.
Qed.

Lemma ackCurrent_shape (cbs : gmap Z (list Callback)) (cur : gmap Z Z) :
  Forall (fun ev => exists fn s, ev = EvAck fn s) (ackCurrent cbs cur).
Proof.
  unfold ackCurrent. apply Forall_forall. intros ev Hin.
  apply list_elem_of_In, in_flat_map in Hin as (p & _ & Hin).
  destruct (cur !! p.1); [|done].
  apply in_map_iff in Hin as (fn & <- & _). eauto.
Qed.

(** The [FlushFamilyTo] calls of one [flushMemoryDatabase]: one, unless the
    data flusher could not be created. *)
Lemma flushMemoryDatabase_writes (o : FlushOutcome) (sequences : gmap Z Z)
    (memDB : M) f :
  List.filter isFlushFamilyTo (events (flushMemoryDatabase o sequences memDB f).2)
  = List.filter isFlushFamilyTo (events f) ++
    match newMetricDataFlusherErr o with
    | Some _ => []
    | None => [EvFlushFamilyTo (FlushFamilyToErr o)]
    end.
Proof.
  assert (List.filter isFlushFamilyTo (sequenceEvents sequences) = []) as Hs.
  { apply filter_none. eapply Forall_impl; [apply sequenceEvents_shape|].
    by intros ev (l & s & ->). }
  assert (List.filter isFlushFamilyTo (ackFlushed sequences (callbacks f)) = [])
    as Ha.
  { apply filter_none. eapply Forall_impl; [apply ackFlushed_shape|].
    by intros ev (fn & s & ->). }
  unfold flushMemoryDatabase.
  destruct (newMetricDataFlusherErr o); cbn.
  { rewrite !List.filter_app, Hs. cbn. by rewrite ?app_nil_r. }
  destruct (FlushFamilyToErr o); cbn;
    rewrite !List.filter_app, ?Hs, ?Ha; cbn; by rewrite ?app_nil_r.
Qed.

Lemma flushMemoryDatabase_registered (o : FlushOutcome) (sequences : gmap Z Z)
    (memDB : M) f :
  let f' := (flushMemoryDatabase o sequences memDB f).2 in
  registered f' = registered f /\
  ActiveFamilies (statistics f') = ActiveFamilies (statistics f).
Proof.
  unfold flushMemoryDatabase.
  destruct (newMetricDataFlusherErr o); [cbn; by split|].
  destruct (FlushFamilyToErr o); cbn; split; try done; lia.
Qed.

(** X12.  What a [Close] that returns has done, error or not: the sequences, the
    persisted sequences, the callbacks and both memory databases with the
    snapshot are untouched (the memory databases are not set to [nil]).  On
    [nil] the family is unregistered; on an error it stays registered and
    counted. *)
Theorem Close_complete_or_registered (o1 o2 : FlushOutcome) f
    (r : option error) f' :
  Close o1 o2 f = Some (r, f') ->
  seq f' = seq f /\ persistSeq f' = persistSeq f /\
  callbacks f' = callbacks f /\
  mutableMemDB f' = mutableMemDB f /\ immutableMemDB f' = immutableMemDB f /\
  immutableSeq f' = immutableSeq f /\
  match r with
  | None =>
      registered f' = false /\
      ActiveFamilies (statistics f') = ActiveFamilies (statistics f) - 1
  | Some _ =>
      registered f' = registered f /\
      ActiveFamilies (statistics f') = ActiveFamilies (statistics f)
  end.
Proof.
  unfold Close. case_bool_decide; [|done].
  assert (exists r1 f1,
            match immutableMemDB f with
            | Some db => flushMemoryDatabase o1 (default ∅ (immutableSeq f)) db f
            | None => (None, f)
            end = (r1, f1) /\
            seq f1 = seq f /\ persistSeq f1 = persistSeq f /\
            callbacks f1 = callbacks f /\ mutableMemDB f1 = mutableMemDB f /\
            immutableMemDB f1 = immutableMemDB f /\
            immutableSeq f1 = immutableSeq f /\ registered f1 = registered f /\
            ActiveFamilies (statistics f1) = ActiveFamilies (statistics f))
    as (r1 & f1 & -> & Hs & Hp & Hc & Hm & Hi & His & Hr & Ha).
  { destruct (immutableMemDB f) as [db|] eqn:Hidb.
    - destruct (flushMemoryDatabase_frame o1 (default ∅ (immutableSeq f)) db f)
        as (? & ? & ? & ? & ? & ? & _).
      destruct (flushMemoryDatabase_registered o1 (default ∅ (immutableSeq f)) db f)
        as (? & ?).
      destruct (flushMemoryDatabase _ _ db f) as [r1 f1]. cbn in *.
      exists r1, f1. split_and!; congruence.
    - exists None, f. by split_and!. }
  destruct r1 as [err1|].
  { intros [= <- <-]. by split_and!. }
  assert (exists r2 f2,
            match mutableMemDB f1 with
            | Some db => flushMemoryDatabase o2 (snapshotSeq f1) db f1
            | None => (None, f1)
            end = (r2, f2) /\
            seq f2 = seq f1 /\ persistSeq f2 = persistSeq f1 /\
            callbacks f2 = callbacks f1 /\ mutableMemDB f2 = mutableMemDB f1 /\
            immutableMemDB f2 = immutableMemDB f1 /\
            immutableSeq f2 = immutableSeq f1 /\ registered f2 = registered f1 /\
            ActiveFamilies (statistics f2) = ActiveFamilies (statistics f1))
    as (r2 & f2 & -> & Hs2 & Hp2 & Hc2 & Hm2 & Hi2 & His2 & Hr2 & Ha2).
  { destruct (mutableMemDB f1) as [db|] eqn:Hmdb.
    - destruct (flushMemoryDatabase_frame o2 (snapshotSeq f1) db f1)
        as (? & ? & ? & ? & ? & ? & _).
      destruct (flushMemoryDatabase_registered o2 (snapshotSeq f1) db f1)
        as (? & ?).
      destruct (flushMemoryDatabase _ _ db f1) as [r2 f2]. cbn in *.
      exists r2, f2. split_and!; congruence.
    - exists None, f1. by split_and!. }
  destruct r2 as [err2|]; intros [= <- <-]; cbn;
    split_and!; try congruence; lia.
Qed.

(** X13.  When the flush of the immutable memory database fails, [Close] returns
    that error without going on to the mutable one: the outcome prepared for
    the second flush plays no part. *)
Theorem Close_stops_at_first_failure (o1 o2 o2' : FlushOutcome) f (db : M)
    (err : error) :
  flushCondition f = 0 -> immutableMemDB f = Some db ->
  (newMetricDataFlusherErr o1 = Some err \/
   newMetricDataFlusherErr o1 = None /\ FlushFamilyToErr o1 = Some err) ->
  Close o1 o2 f = Close o1 o2' f /\
  exists f', Close o1 o2 f = Some (Some err, f') /\
    (flushWrites f' <= S (flushWrites f))%nat.
Proof.
  intros Hfc Hi Herr. unfold Close.
  rewrite bool_decide_eq_true_2 by done. rewrite Hi.
  pose proof (flushMemoryDatabase_error o1 (default ∅ (immutableSeq f)) db f)
    as He.
  pose proof (flushMemoryDatabase_writes o1 (default ∅ (immutableSeq f)) db f)
    as Hw.
  destruct (flushMemoryDatabase o1 _ db f) as [r1 f1]. cbn [fst snd] in *.
  assert (r1 = Some err) as ->.
  { destruct Herr as [E | [E1 E2]];
      [rewrite E in He | rewrite E1, E2 in He]; exact He. }
  split; [reflexivity|]. exists f1. split; [reflexivity|].
  unfold flushWrites.
  rewrite Hw, length_app. destruct (newMetricDataFlusherErr o1); cbn; lia.
Qed.

(** X14.  [Close] does not forget the memory databases it has written: after a
    [Close] that returned [nil], a second [Close] with the same outcomes
    returns [nil] again and calls [FlushFamilyTo] once more for each of them,
    as many times as the first. *)
Theorem Close_again_flushes_again (o1 o2 : FlushOutcome) f f1 :
  Close o1 o2 f = Some (None, f1) ->
  exists f2,
    Close o1 o2 f1 = Some (None, f2) /\
    let n := (match immutableMemDB f with Some _ => 1 | None => 0 end
              + match mutableMemDB f with Some _ => 1 | None => 0 end)%nat in
    flushWrites f1 = (flushWrites f + n)%nat /\
    flushWrites f2 = (flushWrites f1 + n)%nat.
Proof.
  assert (forall g g1, Close o1 o2 g = Some (None, g1) ->
            (flushCondition g1 = flushCondition g /\
             mutableMemDB g1 = mutableMemDB g /\
             immutableMemDB g1 = immutableMemDB g) /\
            flushCondition g = 0 /\
            (is_Some (immutableMemDB g) -> writeSucceeds o1) /\
            (is_Some (mutableMemDB g) -> writeSucceeds o2)) as Hinv.
  { intros g g1. unfold Close. case_bool_decide as Hfc; [|done].
    destruct (immutableMemDB g) as [db|] eqn:Hidb.
    - pose proof (flushMemoryDatabase_error o1 (default ∅ (immutableSeq g)) db g)
        as He1.
      destruct (flushMemoryDatabase_frame o1 (default ∅ (immutableSeq g)) db g)
        as (_ & _ & _ & Hi1 & Hm1 & _ & _ & Hc1).
      destruct (flushMemoryDatabase o1 _ db g) as [[e|] g0]; [done|].
      cbn [fst snd] in *. rewrite Hm1.
      assert (writeSucceeds o1) as Hw1.
      { unfold writeSucceeds. destruct (newMetricDataFlusherErr o1); [done|].
        by destruct (FlushFamilyToErr o1). }
      destruct (mutableMemDB g) as [db2|] eqn:Hmdb.
      + pose proof (flushMemoryDatabase_error o2 (snapshotSeq g0) db2 g0) as He2.
        destruct (flushMemoryDatabase_frame o2 (snapshotSeq g0) db2 g0)
          as (_ & _ & _ & Hi2 & Hm2 & _ & _ & Hc2).
        destruct (flushMemoryDatabase o2 _ db2 g0) as [[e|] g2]; [done|].
        cbn [fst snd] in *. intros [= <-]. cbn.
        split_and!; [congruence | congruence | congruence | done | done |].
        intros _. unfold writeSucceeds.
        destruct (newMetricDataFlusherErr o2); [done|].
        by destruct (FlushFamilyToErr o2).
      + intros [= <-]. cbn.
        split_and!; [congruence | congruence | congruence | done | done |].
        by intros [? [=]].
    - destruct (mutableMemDB g) as [db2|] eqn:Hmdb.
      + pose proof (flushMemoryDatabase_error o2 (snapshotSeq g) db2 g) as He2.
        destruct (flushMemoryDatabase_frame o2 (snapshotSeq g) db2 g)
          as (_ & _ & _ & Hi2 & Hm2 & _ & _ & Hc2).
        destruct (flushMemoryDatabase o2 _ db2 g) as [[e|] g2]; [done|].
        cbn [fst snd] in *. intros [= <-]. cbn.
        split_and!;
          [congruence | congruence | congruence | done | by intros [? [=]] |].
        intros _. unfold writeSucceeds.
        destruct (newMetricDataFlusherErr o2); [done|].
        by destruct (FlushFamilyToErr o2).
      + intros [= <-]. cbn.
        split_and!; [done | done | done | done | |]; by intros [? [=]]. }
  assert (forall g, flushCondition g = 0 ->
            (is_Some (immutableMemDB g) -> writeSucceeds o1) ->
            (is_Some (mutableMemDB g) -> writeSucceeds o2) ->
            exists g1, Close o1 o2 g = Some (None, g1) /\
              length (List.filter isFlushFamilyTo (events g1)) =
              (length (List.filter isFlushFamilyTo (events g))
               + (match immutableMemDB g with Some _ => 1 | None => 0 end
                  + match mutableMemDB g with Some _ => 1 | None => 0 end))%nat)
    as Hrun.
  { intros g Hfc Hw1 Hw2. unfold Close. rewrite bool_decide_eq_true_2 by done.
    destruct (immutableMemDB g) as [db|].
    - destruct Hw1 as [Ha Hb]; [by eexists|].
      pose proof (flushMemoryDatabase_error o1 (default ∅ (immutableSeq g)) db g)
        as He1.
      pose proof (flushMemoryDatabase_writes o1 (default ∅ (immutableSeq g)) db g)
        as Hc1.
      destruct (flushMemoryDatabase_frame o1 (default ∅ (immutableSeq g)) db g)
        as (_ & _ & _ & _ & Hm1 & _).
      rewrite Ha, Hb in He1, Hc1.
      destruct (flushMemoryDatabase o1 _ db g) as [r1 g0].
      cbn [fst snd] in *. subst r1. rewrite Hm1.
      destruct (mutableMemDB g) as [db2|].
      + destruct Hw2 as [Ha2 Hb2]; [by eexists|].
        pose proof (flushMemoryDatabase_error o2 (snapshotSeq g0) db2 g0) as He2.
        pose proof (flushMemoryDatabase_writes o2 (snapshotSeq g0) db2 g0) as Hc2.
        rewrite Ha2, Hb2 in He2, Hc2.
        destruct (flushMemoryDatabase o2 _ db2 g0) as [r2 g2].
        cbn [fst snd] in *. subst r2. eexists. split; [reflexivity|].
        cbn. rewrite Hc2, Hc1, !length_app. cbn. lia.
      + eexists. split; [reflexivity|]. cbn. rewrite Hc1, length_app. cbn. lia.
    - destruct (mutableMemDB g) as [db2|].
      + destruct Hw2 as [Ha2 Hb2]; [by eexists|].
        pose proof (flushMemoryDatabase_error o2 (snapshotSeq g) db2 g) as He2.
        pose proof (flushMemoryDatabase_writes o2 (snapshotSeq g) db2 g) as Hc2.
        rewrite Ha2, Hb2 in He2, Hc2.
        destruct (flushMemoryDatabase o2 _ db2 g) as [r2 g2].
        cbn [fst snd] in *. subst r2. eexists. split; [reflexivity|].
        cbn. rewrite Hc2, length_app. cbn. lia.
      + eexists. split; [reflexivity|]. cbn. lia. }
  intros Hclose.
  destruct (Hinv _ _ Hclose) as ((Hfc1 & Hm & Hi) & Hfc & Hw1 & Hw2).
  destruct (Hrun f Hfc Hw1 Hw2) as (g1 & Hg1 & Hcount1).
  rewrite Hclose in Hg1. injection Hg1 as <-.
  destruct (Hrun f1) as (f2 & Hf2 & Hcount2);
    [congruence | by rewrite Hi | by rewrite Hm |].
  exists f2. split; [exact Hf2|]. cbn zeta. unfold flushWrites.
  rewrite Hcount2, Hcount1, Hm, Hi. by split.
Qed.

End CloseProperties.

(** * What every schedule preserves *)

Section ScheduleProperties.

Context {M : Type} `{MemoryDatabase M}.

Implicit Types (f : @dataFamily M) (l s : Z) (sys : @System M).

Lemma callbacksExtend_eq f f' : callbacks f' = callbacks f -> callbacksExtend f f'.
Proof. intros Heq l fns Hl. exists []. by rewrite Heq, app_nil_r. Qed.

Lemma callbacksExtend_trans f1 f2 f3 :
  callbacksExtend f1 f2 -> callbacksExtend f2 f3 -> callbacksExtend f1 f3.
Proof.
  intros H12 H23 l fns Hl.
  destruct (H12 l fns Hl) as (m1 & Hm1).
  destruct (H23 l _ Hm1) as (m2 & Hm2).
  exists (m1 ++ m2). by rewrite app_assoc.
Qed.

Lemma zip_with_EvWriteRow_shape (rows : list StorageRow)
    (errs : list (option error)) :
  Forall (fun ev => exists r e, ev = EvWriteRow r e)
    (zip_with EvWriteRow rows errs).
Proof.
  revert errs. induction rows as [|r rest IH]; intros [|e errs]; cbn;
    constructor; eauto.
Qed.

Lemma WriteRows_keeps (newMemoryDBFunc : Z -> M + error)
    (rows : list StorageRow) f :
  let f' := (WriteRows newMemoryDBFunc rows f).2 in
  persistSeq f' = persistSeq f /\ callbacks f' = callbacks f /\
  immutableMemDB f' = immutableMemDB f /\ immutableSeq f' = immutableSeq f /\
  isFlushing f' = isFlushing f /\ flushCondition f' = flushCondition f /\
  List.filter isDiskWrite (events f') = List.filter isDiskWrite (events f).
Proof.
  unfold WriteRows. destruct rows as [|row rest]; [by cbn|].
  assert (forall (db : M) g,
            let r := writeLoop (row :: rest) db 0 g in
            persistSeq r.2 = persistSeq g /\ callbacks r.2 = callbacks g /\
            immutableMemDB r.2 = immutableMemDB g /\
            immutableSeq r.2 = immutableSeq g /\
            isFlushing r.2 = isFlushing g /\
            flushCondition r.2 = flushCondition g /\
            List.filter isDiskWrite (events r.2)
            = List.filter isDiskWrite (events g)) as Hloop.
  { intros db g.
    destruct (writeLoop_accounts (row :: rest) db 0 g)
      as (errs & _ & Hev & _ & _ & _ & Hp & Hc & Hi & _ & Hg).
    destruct (writeLoop_frame (row :: rest) db 0 g) as (_ & His & Hfc & _).
    cbn zeta in *. split_and!; try done.
    rewrite Hev, List.filter_app, (filter_none isDiskWrite (zip_with _ _ _)).
    - by rewrite app_nil_r.
    - eapply Forall_impl; [apply zip_with_EvWriteRow_shape|].
      by intros ev (r & e & ->). }
  unfold GetOrCreateMemoryDatabase.
  destruct (mutableMemDB f) as [db|].
  - specialize (Hloop db f).
    destruct (writeLoop (row :: rest) db 0 f) as [[db' total] f2]. exact Hloop.
  - destruct (newMemoryDBFunc (familyTime f)) as [newDB|err].
    + set (f1 := addStat _ _). specialize (Hloop newDB f1).
      destruct (writeLoop (row :: rest) newDB 0 f1) as [[db' total] f2].
      cbn in *. destruct Hloop as (? & ? & ? & ? & ? & ? & Hev).
      split_and!; try done. rewrite Hev, List.filter_app. cbn.
      by rewrite app_nil_r.
    + cbn. split_and!; try done. rewrite List.filter_app. cbn.
      by rewrite app_nil_r.
Qed.

Lemma Flush_keeps (o : FlushOutcome) f :
  let f' := (Flush o f).2 in
  callbacks f' = callbacks f /\ isFlushing f' = isFlushing f /\
  flushCondition f' = flushCondition f.
Proof.
  unfold Flush. destruct (isFlushing f) eqn:Hfl; [done|].
  destruct (Flush_promote _) as [[[f1 iseq] db]|] eqn:Hp.
  - apply Flush_promote_frame in Hp as (Hg & Hc & _ & Hcb & _).
    cbn in Hg, Hc, Hcb.
    destruct (flushMemoryDatabase_frame o iseq db f1)
      as (_ & _ & _ & _ & _ & Hcb2 & Hg2 & Hc2).
    destruct (flushMemoryDatabase o iseq db f1) as [[err|] f2];
      cbn in *; split_and!; try congruence; lia.
  - cbn. split_and!; [done | done | lia].
Qed.

(** With the gate closed or an immutable memory database in place, [Flush]
    switches nothing and writes nothing. *)
Lemma Flush_blocked (o : FlushOutcome) f :
  isFlushing f = true \/ is_Some (immutableMemDB f) ->
  let f' := (Flush o f).2 in
  immutableMemDB f' = immutableMemDB f /\ immutableSeq f' = immutableSeq f /\
  events f' = events f.
Proof.
  intros Hb. unfold Flush. destruct (isFlushing f) eqn:Hfl; [done|].
  destruct Hb as [? | [db Hi]]; [done|].
  unfold Flush_promote. cbn. by rewrite Hi.
Qed.

Lemma AckSequence_keeps l (fn : Callback) f :
  let f' := AckSequence l fn f in
  callbacksExtend f f' /\ persistSeq f' = persistSeq f /\
  immutableMemDB f' = immutableMemDB f /\ immutableSeq f' = immutableSeq f /\
  isFlushing f' = isFlushing f /\ flushCondition f' = flushCondition f /\
  List.filter isDiskWrite (events f') = List.filter isDiskWrite (events f).
Proof.
  unfold AckSequence. cbn zeta.
  assert (callbacksExtend f
            (set_callbacks
               (<[l := default [] (callbacks f !! l) ++ [fn]]> (callbacks f)) f))
    as Hext.
  { intros l' fns Hl'. cbn. destruct (decide (l' = l)) as [->|Hne].
    - exists [fn]. by rewrite lookup_insert_eq, Hl'.
    - exists []. by rewrite lookup_insert_ne, app_nil_r. }
  cbn. destruct (seq f !! l); cbn; (split_and!; try done).
  rewrite List.filter_app. cbn. by rewrite app_nil_r.
Qed.

Lemma exec_keeps (op : @Op M) f :
  let f' := (exec op f).2 in
  persistSeq f' = persistSeq f /\ callbacksExtend f f' /\
  isFlushing f' = isFlushing f /\ flushCondition f' = flushCondition f.
Proof.
  destruct op as [mk rows|l s|l s|l fn|cfg| |o]; cbn [exec snd];
    try (cbn; split_and!; [done | by apply callbacksExtend_eq | done | done]).
  - destruct (WriteRows_keeps mk rows f) as (? & ? & _ & _ & ? & ? & _).
    cbn zeta. split_and!; [done | by apply callbacksExtend_eq | done | done].
  - destruct (AckSequence_keeps l fn f) as (? & ? & _ & _ & ? & ? & _).
    by split_and!.
  - destruct (Flush_keeps o f) as (? & ? & ?).
    destruct (Flush_seq_persistSeq o f) as (_ & ?).
    cbn zeta. split_and!; [done | by apply callbacksExtend_eq | done | done].
Qed.

Lemma exec_blocked (op : @Op M) f :
  isFlushing f = true \/ is_Some (immutableMemDB f) ->
  let f' := (exec op f).2 in
  immutableMemDB f' = immutableMemDB f /\ immutableSeq f' = immutableSeq f /\
  List.filter isDiskWrite (events f') = List.filter isDiskWrite (events f).
Proof.
  intros Hb. destruct op as [mk rows|l s|l s|l fn|cfg| |o]; cbn [exec snd];
    try (cbn; by split_and!).
  - destruct (WriteRows_keeps mk rows f) as (_ & _ & ? & ? & _ & _ & ?).
    by split_and!.
  - destruct (AckSequence_keeps l fn f) as (_ & _ & ? & ? & _ & _ & ?).
    by split_and!.
  - destruct (Flush_blocked o f Hb) as (? & ? & Hev).
    cbn zeta. split_and!; [done | done | by rewrite Hev].
Qed.

Lemma step_keeps (st : @Step M) sys :
  persistSeq (fam (step st sys)) = persistSeq (fam sys) /\
  callbacksExtend (fam sys) (fam (step st sys)).
Proof.
  destruct st as [op| |o|]; cbn [step].
  - destruct (exec_keeps op (fam sys)) as (? & ? & _). by split.
  - unfold stepFlushSwap. destruct (isFlushing (fam sys));
      [split; [done | by apply callbacksExtend_eq]|].
    destruct (Flush_promote _) as [[[f1 iseq] db]|] eqn:Hp.
    + apply Flush_promote_frame in Hp as (_ & _ & Hp & Hc & _).
      cbn in *. split; [done | by apply callbacksExtend_eq].
    + cbn. split; [done | by apply callbacksExtend_eq].
  - unfold stepFlushWrite.
    destruct (flushCall sys) as [[iseq db [|]]|];
      try (split; [done | by apply callbacksExtend_eq]).
    destruct (flushMemoryDatabase_frame o iseq db (fam sys))
      as (_ & Hp & _ & _ & _ & Hc & _).
    destruct (flushMemoryDatabase o iseq db (fam sys)) as [[err|] f2];
      cbn in *; (split; [done | by apply callbacksExtend_eq]).
  - unfold stepFlushCommit.
    destruct (flushCall sys) as [[iseq db [|]]|];
      (split; [done | by apply callbacksExtend_eq]).
Qed.

Lemma runSteps_keeps (steps : list (@Step M)) :
  forall sys,
    persistSeq (fam (runSteps steps sys)) = persistSeq (fam sys) /\
    callbacksExtend (fam sys) (fam (runSteps steps sys)).
Proof.
  induction steps as [|st rest IH]; intros sys.
  - split; [done | by apply callbacksExtend_eq].
  - cbn [runSteps]. destruct (IH (step st sys)) as [Hp Hc].
    destruct (step_keeps st sys) as [Hp1 Hc1]. split; [congruence|].
    by eapply callbacksExtend_trans.
Qed.

(** X15.  No schedule ever writes [persistSeq]: after any operations and any steps
    of [Flush], with any outcomes, it is what [newDataFamily] seeded. *)
Theorem persistSeq_never_changes (steps : list (@Step M)) sys :
  persistSeq (fam (runSteps steps sys)) = persistSeq (fam sys).
Proof.
  apply runSteps_keeps.
Qed.

(** X16.  The callbacks are an append-only register: whatever the schedule, every
    callback registered before it is still registered after it, in its place
    in the list of its leader; a flush that has called a callback keeps it. *)
Theorem callbacks_append_only (steps : list (@Step M)) sys :
  callbacksExtend (fam sys) (fam (runSteps steps sys)).
Proof.
  apply runSteps_keeps.
Qed.

Lemma runSteps_seq (steps : list (@Step M)) :
  forall sys, snapshotCurrent sys -> admissible steps sys = true ->
    seqNonDecreasing (fam sys) (fam (runSteps steps sys)).
Proof.
  induction steps as [|st rest IH]; intros sys Hinv Hadm.
  - by apply seqNonDecreasing_eq.
  - cbn [admissible runSteps] in *.
    apply andb_prop in Hadm as [Hst Hrest].
    apply andb_prop in Hst as [Hval Hout].
    destruct (step_seq st sys Hinv Hval Hout) as [Hinv' Hmono].
    eapply seqNonDecreasing_trans; [exact Hmono | by apply IH].
Qed.

(** X17.  From creation on, along every schedule in which each commit is validated
    and none is made for a leader that a running flush has snapshotted, each
    persisted sequence is at most the current sequence of its leader. *)
Theorem persistSeq_below_seq (steps : list (@Step M)) (interval0 : Z)
    (calc : Z -> Z -> Z -> Z) (familyTime0 : Z) (sequences : gmap Z Z) :
  admissible steps (idle (newDataFamily interval0 calc familyTime0 sequences))
    = true ->
  persistedBelowSeq
    (fam (runSteps steps
            (idle (newDataFamily interval0 calc familyTime0 sequences)))).
Proof.
  intros Hadm l p Hp.
  set (f0 := newDataFamily interval0 calc familyTime0 sequences) in *.
  rewrite (proj1 (runSteps_keeps steps (idle f0))) in Hp.
  apply (runSteps_seq steps (idle f0)); [by intros c [=] | exact Hadm |].
  exact Hp.
Qed.

End ScheduleProperties.

(** * The flush gate along schedules *)

Section GateProperties.

Context {M : Type} `{MemoryDatabase M}.

Implicit Types (f : @dataFamily M) (sys : @System M).

Lemma step_flushGate (st : @Step M) sys : flushGate sys -> flushGate (step st sys).
Proof.
  unfold flushGate. intros Hg. destruct st as [op| |o|]; cbn [step].
  - (* a whole operation *)
    destruct (exec_keeps op (fam sys)) as (_ & _ & Hfl & Hfc).
    cbn [fam flushCall]. destruct (flushCall sys) as [c|].
    + destruct Hg as (Hg1 & Hg2 & Hg3 & Hg4).
      destruct (exec_blocked op (fam sys)) as (Hi & His & _); [by left|].
      cbn zeta in *. split_and!; congruence.
    + destruct Hg as (Hg1 & Hg2). cbn zeta in *. split; congruence.
  - (* the switch *)
    unfold stepFlushSwap. destruct (isFlushing (fam sys)) eqn:Hfl;
      [rewrite Hfl; exact Hg|].
    destruct (flushCall sys) as [c|]; [by destruct Hg|].
    destruct Hg as (_ & Hfc).
    destruct (Flush_promote _) as [[[f1 iseq] db]|] eqn:Hp.
    + apply Flush_promote_frame in Hp
        as (Hg1 & Hc1 & _ & _ & _ & _ & Hi & His & _).
      cbn in *. split_and!; [done | lia | done | done].
    + cbn. split; [done | lia].
  - (* the disk write *)
    unfold stepFlushWrite.
    destruct (flushCall sys) as [[iseq db [|]]|] eqn:Hc;
      try (first [exact Hg | rewrite Hc; exact Hg]).
    destruct Hg as (Hg1 & Hg2 & Hg3 & Hg4). cbn in Hg3, Hg4.
    destruct (flushMemoryDatabase_frame o iseq db (fam sys))
      as (_ & _ & His & Hi & _ & _ & Hfl & Hfc).
    destruct (flushMemoryDatabase o iseq db (fam sys)) as [[err|] f2];
      cbn in *.
    + split; [done | lia].
    + split_and!; congruence.
  - (* the commit *)
    unfold stepFlushCommit.
    destruct (flushCall sys) as [[iseq db [|]]|] eqn:Hc;
      try (first [exact Hg | rewrite Hc; exact Hg]).
    destruct Hg as (Hg1 & Hg2 & _). cbn. split; [done | lia].
Qed.

(** X18.  Single flight.  Start from a state in which the gate agrees with the
    call in flight (for instance a new family) and run any schedule.  The
    gate still agrees afterwards; and whenever a [Flush] is then between its
    switch and its return, [NeedFlush] answers [false], any other [Flush]
    returns [nil] at once leaving the family as it is, and [Close] is held at
    its wait. *)
Theorem flush_single_flight (steps : list (@Step M)) sys :
  flushGate sys ->
  let sys' := runSteps steps sys in
  flushGate sys' /\
  (is_Some (flushCall sys') ->
   (forall cfg, NeedFlush cfg (fam sys') = false) /\
   (forall o, Flush o (fam sys') = (None, fam sys')) /\
   (forall o1 o2, Close o1 o2 (fam sys') = None)).
Proof.
  intros Hg. cbn zeta.
  assert (flushGate (runSteps steps sys)) as Hg'.
  { revert sys Hg. induction steps as [|st rest IH]; intros sys Hg; [done|].
    cbn [runSteps]. by apply IH, step_flushGate. }
  split; [exact Hg'|]. intros [c Hc]. unfold flushGate in Hg'.
  rewrite Hc in Hg'. destruct Hg' as (Hfl & Hfc & _).
  split_and!.
  - intros cfg. unfold NeedFlush, IsFlushing. by rewrite Hfl.
  - intros o. unfold Flush. by rewrite Hfl.
  - intros o1 o2. unfold Close. rewrite bool_decide_eq_false_2; [done | lia].
Qed.

Lemma step_stuck (db : M) (st : @Step M) sys :
  flushCall sys = None -> immutableMemDB (fam sys) = Some db ->
  flushCall (step st sys) = None /\
  immutableMemDB (fam (step st sys)) = Some db /\
  List.filter isDiskWrite (events (fam (step st sys)))
  = List.filter isDiskWrite (events (fam sys)).
Proof.
  intros Hc Hi. destruct st as [op| |o|]; cbn [step].
  - destruct (exec_blocked op (fam sys)) as (Hi' & _ & Hev);
      [right; by eexists|].
    cbn. split_and!; congruence.
  - unfold stepFlushSwap. destruct (isFlushing (fam sys)); [done|].
    unfold Flush_promote. cbn. rewrite Hi. cbn. by split_and!.
  - unfold stepFlushWrite. by rewrite Hc.
  - unfold stepFlushCommit. by rewrite Hc.
Qed.

(** X19.  After a flush has failed, nothing short of [Close] writes again.  When an
    immutable memory database is in place and no [Flush] is running (the
    state a failed disk write leaves), then after any schedule of writes,
    commits, registrations and [Flush] calls with any outcomes the same
    immutable memory database is still in place, no memory database has been
    marked read-only or handed to [FlushFamilyTo], and [NeedFlush] is
    [false]. *)
Theorem failed_flush_blocks_later_flushes (db : M) (steps : list (@Step M)) sys :
  flushCall sys = None -> immutableMemDB (fam sys) = Some db ->
  let sys' := runSteps steps sys in
  flushCall sys' = None /\
  immutableMemDB (fam sys') = Some db /\
  List.filter isDiskWrite (events (fam sys'))
  = List.filter isDiskWrite (events (fam sys)) /\
  (forall cfg, NeedFlush cfg (fam sys') = false).
Proof.
  intros Hc Hi. cbn zeta.
  assert (flushCall (runSteps steps sys) = None /\
          immutableMemDB (fam (runSteps steps sys)) = Some db /\
          List.filter isDiskWrite (events (fam (runSteps steps sys)))
          = List.filter isDiskWrite (events (fam sys))) as (Hc' & Hi' & Hev).
  { revert sys Hc Hi. induction steps as [|st rest IH]; intros sys Hc Hi;
      [done|].
    cbn [runSteps]. destruct (step_stuck db st sys Hc Hi) as (Hc1 & Hi1 & Hev1).
    destruct (IH _ Hc1 Hi1) as (? & ? & Hev2). split_and!; congruence. }
  split_and!; try done.
  intros cfg. unfold NeedFlush. destruct (IsFlushing _); [done|].
  by rewrite Hi'.
Qed.

End GateProperties.

(** * Properties of the query path *)

Section QueryProperties.

Context {M : Type} `{MemoryDatabase M} {RS MR : Type}.

Implicit Types (env : @QueryEnv M RS MR) (ctx : ShardExecuteContext)
  (f : @dataFamily M).

Lemma memoryFilter_events env ctx f :
  Forall (fun ev => exists b, ev = QMemFilter b) (memoryFilter env ctx f).2.
Proof.
  unfold memoryFilter, memFilter.
  destruct (mutableMemDB f) as [db|].
  - destruct (memDBFilter env db ctx) as [rs [err|]]; cbn.
    { repeat constructor. eauto. }
    destruct (immutableMemDB f) as [db2|]; [|repeat constructor; eauto].
    destruct (memDBFilter env db2 ctx) as [rs2 [err|]]; cbn;
      repeat constructor; eauto.
  - destruct (immutableMemDB f) as [db2|]; [|constructor].
    destruct (memDBFilter env db2 ctx) as [rs2 [err|]]; cbn;
      repeat constructor; eauto.
Qed.

Lemma memoryFilter_error env ctx f (err : error) :
  (memoryFilter env ctx f).1.2 = Some err -> (memoryFilter env ctx f).1.1 = [].
Proof.
  unfold memoryFilter, memFilter.
  destruct (mutableMemDB f) as [db|].
  - destruct (memDBFilter env db ctx) as [rs [e|]]; cbn; [done|].
    destruct (immutableMemDB f) as [db2|]; [|done].
    by destruct (memDBFilter env db2 ctx) as [rs2 [e|]].
  - destruct (immutableMemDB f) as [db2|]; [|done].
    by destruct (memDBFilter env db2 ctx) as [rs2 [e|]].
Qed.

(** The snapshot calls of [fileFilter]: it is taken once, and closed once at
    the end exactly when the deferred test holds. *)
Lemma fileFilter_snapshot env ctx f :
  let r := fileFilter env ctx f in
  length (List.filter isGetSnapshot r.2) = 1%nat /\
  length (List.filter isSnapshotClose r.2)
  = (if closesSnapshot r.1 then 1 else 0)%nat /\
  (forall err, r.1.2 = Some err -> r.1.1 = [] \/ closesSnapshot r.1 = true).
Proof.
  unfold fileFilter. cbn zeta.
  set (body := match FindReaders env _ with | (_, Some _) => _ | _ => _ end).
  assert (body.2 = [] \/ body.2 = [QFileFilter]) as Hmid.
  { subst body. destruct (FindReaders env _) as [readers [err|]]; [by left|].
    destruct (selectReaders _ _ _ _ _) as [[|r rs]|err]; auto. }
  cbn [fst snd]. split_and!.
  - destruct Hmid as [-> | ->]; cbn; by destruct (closesSnapshot body.1).
  - destruct Hmid as [-> | ->]; cbn; by destruct (closesSnapshot body.1).
  - intros err Herr. right. unfold closesSnapshot. by rewrite Herr.
Qed.

(** X20.  Every snapshot that [Filter] takes is closed before it returns, except
    when it returns file results: at most one snapshot is taken; when [Filter]
    returns an error it returns no result set and has closed what it took;
    and the snapshot is left open exactly when the memory filter succeeded
    and the file filter returned at least one result set without error. *)
Theorem Filter_snapshot_discipline env ctx f :
  let r := Filter env ctx f in
  let opens := length (List.filter isGetSnapshot r.2) in
  let closes := length (List.filter isSnapshotClose r.2) in
  (closes <= opens)%nat /\ (opens <= 1)%nat /\
  (is_Some r.1.2 -> r.1.1 = [] /\ closes = opens) /\
  ((closes < opens)%nat <->
   (memoryFilter env ctx f).1.2 = None /\
   exists x xs, (fileFilter env ctx f).1 = (x :: xs, None)).
Proof.
  cbn zeta. unfold Filter.
  pose proof (memoryFilter_events env ctx f) as Hmem.
  assert (List.filter isGetSnapshot (memoryFilter env ctx f).2 = [] /\
          List.filter isSnapshotClose (memoryFilter env ctx f).2 = [])
    as [Hm1 Hm2].
  { split; apply filter_none; (eapply Forall_impl; [exact Hmem|]);
      by intros ev (b & ->). }
  destruct (memoryFilter env ctx f) as [[memRS [merr|]] evs];
    cbn [fst snd] in *.
  { rewrite Hm1, Hm2. cbn. split_and!; try lia; [done|].
    split; [lia | by intros [? _]]. }
  destruct (fileFilter_snapshot env ctx f) as (Ho & Hc & _).
  destruct (fileFilter env ctx f) as [[fileRS [ferr|]] evs2] eqn:Hff;
    cbn [fst snd] in *.
  - rewrite !List.filter_app, !length_app, Hm1, Hm2, Ho, Hc. cbn.
    split_and!; try lia; [done|].
    split; [lia | by intros (_ & x & xs & [=])].
  - rewrite !List.filter_app, !length_app, Hm1, Hm2, Ho, Hc.
    unfold closesSnapshot. cbn.
    destruct fileRS as [|x xs]; cbn.
    + split_and!; try lia; [by intros [? [=]]|].
      split; [lia | by intros (_ & x & xs & [=])].
    + split_and!; try lia; [by intros [? [=]]|].
      split; [|lia]. intros _. split; [done|]. by exists x, xs.
Qed.

Lemma selectReaders_ok env (metricKey : Z) (q : SlotRange)
    (readers : list Reader) :
  forall (mrs acc : list MR),
    Forall2 (fun pv r => newReaderFunc env pv.1 pv.2 = inl r)
      (readable metricKey readers) mrs ->
    selectReaders env metricKey q readers acc
    = inl (acc ++ List.filter (fun r => Overlap env (GetTimeRange env r) q) mrs).
Proof.
  induction readers as [|reader rest IH]; intros mrs acc Hall.
  - cbn in Hall. apply Forall2_nil_inv_l in Hall as ->. cbn.
    by rewrite app_nil_r.
  - cbn in *. destruct (Get reader metricKey) as [value [err0|]].
    + by apply IH.
    + apply Forall2_cons_inv_l in Hall as (r & mrs' & Hr & Hrest & ->).
      cbn in Hr. rewrite Hr. cbn.
      destruct (Overlap env (GetTimeRange env r) q).
      * rewrite (IH mrs') by done. by rewrite <- app_assoc.
      * by apply IH.
Qed.

Lemma selectReaders_error env (metricKey : Z) (q : SlotRange)
    (readers : list Reader) :
  forall (pre : list (string * list Z)) (mrs acc : list MR) pv post err,
    readable metricKey readers = pre ++ pv :: post ->
    Forall2 (fun pv r => newReaderFunc env pv.1 pv.2 = inl r) pre mrs ->
    newReaderFunc env pv.1 pv.2 = inr err ->
    selectReaders env metricKey q readers acc = inr err.
Proof.
  induction readers as [|reader rest IH];
    intros pre mrs acc pv post err Hsplit Hpre Herr.
  - cbn in Hsplit. by destruct pre.
  - cbn in *. destruct (Get reader metricKey) as [value [err0|]].
    + by eapply IH.
    + destruct pre as [|x pre'].
      * cbn in Hsplit. injection Hsplit as <- _. cbn in Herr. by rewrite Herr.
      * cbn in Hsplit. injection Hsplit as <- Hsplit.
        apply Forall2_cons_inv_l in Hpre as (r & mrs' & Hr & Hrest & ->).
        cbn in Hr. rewrite Hr.
        destruct (Overlap env (GetTimeRange env r) q); by eapply IH.
Qed.

(** X21.  The reader loop of [fileFilter], said without the loop.  Of the readers
    that [FindReaders] returns, those without the metric are passed over.
    When a metric reader can be built for all the others, the file filter is
    run on those whose time range overlaps the slot range of the query, in
    table order, and is not run at all when there is none (the result is then
    empty, without error).  When building one of them fails, [fileFilter]
    returns the error of the first that fails and no result set. *)
Theorem fileFilter_selects_readers env ctx f (readers : list Reader) :
  FindReaders env (uint32 (MetricID ctx)) = (readers, None) ->
  let key := uint32 (MetricID ctx) in
  let q := CalcSourceSlotRange ctx (familyTime f) in
  (forall mrs,
     Forall2 (fun pv r => newReaderFunc env pv.1 pv.2 = inl r)
       (readable key readers) mrs ->
     (fileFilter env ctx f).1 =
     match List.filter (fun r => Overlap env (GetTimeRange env r) q) mrs with
     | [] => ([], None)
     | r :: rs =>
         newFilterFunc env (timeRangeStart env) (r :: rs)
           (SeriesIDsAfterFiltering ctx) (Fields ctx)
     end) /\
  (forall pre mrs pv post err,
     readable key readers = pre ++ pv :: post ->
     Forall2 (fun pv r => newReaderFunc env pv.1 pv.2 = inl r) pre mrs ->
     newReaderFunc env pv.1 pv.2 = inr err ->
     fileFilter env ctx f = (([], Some err),
                             [QGetSnapshot; QFindReaders key; QSnapshotClose])).
Proof.
  intros Hfind. cbn zeta. split.
  - intros mrs Hall. unfold fileFilter. rewrite Hfind. cbn [fst snd].
    rewrite (selectReaders_ok env _ _ readers mrs []) by done. cbn [app].
    by destruct (List.filter _ mrs).
  - intros pre mrs pv post err Hsplit Hpre Herr.
    unfold fileFilter. rewrite Hfind.
    by rewrite (selectReaders_error env _ _ readers pre mrs [] pv post err).
Qed.

(** X22.  When both memory databases and the files answer without error, [Filter]
    returns the result sets of the mutable memory database, then those of the
    immutable one, then those of the files; a memory database that is absent
    contributes nothing. *)
Theorem Filter_concatenates env ctx f (rsM rsI fileRS : list RS) :
  match mutableMemDB f with
  | Some db => memDBFilter env db ctx = (rsM, None)
  | None => rsM = []
  end ->
  match immutableMemDB f with
  | Some db => memDBFilter env db ctx = (rsI, None)
  | None => rsI = []
  end ->
  (fileFilter env ctx f).1 = (fileRS, None) ->
  (Filter env ctx f).1 = (rsM ++ rsI ++ fileRS, None).
Proof.
  intros Hm Hi Hf. unfold Filter.
  assert ((memoryFilter env ctx f).1 = (rsM ++ rsI, None)) as Hmem.
  { unfold memoryFilter, memFilter.
    destruct (mutableMemDB f) as [db|]; [rewrite Hm | subst rsM];
      (destruct (immutableMemDB f) as [db2|]; [rewrite Hi | subst rsI]);
      cbn; by rewrite ?app_nil_r. }
  destruct (memoryFilter env ctx f) as [[memRS merr] evs].
  cbn in Hmem. injection Hmem as -> ->.
  destruct (fileFilter env ctx f) as [[frs ferr] evs2].
  cbn in Hf. injection Hf as -> ->. cbn. by rewrite <- app_assoc.
Qed.

(** An error of the mutable memory database ends [Filter] at once: that error
    is returned with no result set, the immutable memory database is not
    asked and no snapshot of the files is taken.  An error of the file filter
    discards the result sets that the memory databases had returned. *)
Theorem Filter_error_short_circuits env ctx f :
  (forall db rs err,
     mutableMemDB f = Some db -> memDBFilter env db ctx = (rs, Some err) ->
     Filter env ctx f = (([], Some err), [QMemFilter false])) /\
  (forall rs err,
     (memoryFilter env ctx f).1.2 = None ->
     (fileFilter env ctx f).1 = (rs, Some err) ->
     (Filter env ctx f).1 = ([], Some err)).
Proof.
  split.
  - intros db rs err Hm Hf. unfold Filter, memoryFilter, memFilter.
    by rewrite Hm, Hf.
  - intros rs err Hmem Hfile. unfold Filter.
    destruct (memoryFilter env ctx f) as [[memRS merr] evs].
    cbn in Hmem. subst merr.
    destruct (fileFilter env ctx f) as [[frs ferr] evs2].
    cbn in Hfile. by injection Hfile as -> ->.
Qed.

End QueryProperties.

(** * Fail-over and resignation of the master *)

Section LifecycleProperties.

Import coordinator.

Implicit Types (rt : runtime) (ts : list Transition).

Lemma transit_keeps (t : Transition) rt :
  electIsMaster (node (transit t rt)) = electIsMaster (node rt) /\
  (is_Some (stateMgr (node rt)) -> is_Some (stateMgr (node (transit t rt)))) /\
  ((is_Some (stateMachineFct rt) -> is_Some (stateMgr (node rt))) ->
   is_Some (stateMachineFct (transit t rt)) ->
   is_Some (stateMgr (node (transit t rt)))).
Proof.
  destruct t as [mgr fct|]; cbn.
  - unfold OnFailOver. destruct (factoryStart fct); cbn.
    + split_and!; [done | done |]. by intros _ [? [=]].
    + split_and!; [done | by eexists | by eexists].
  - split_and!; [done | done |]. by intros _ [? [=]].
Qed.

(** X23.  The state manager is installed for good.  Across any sequence of
    fail-overs (that start or fail to start) and resignations, a state
    manager that is installed is never taken out again, so from the first
    successful fail-over on [FlushDatabase] cannot hit a [nil] state manager;
    and whenever a state machine factory is installed, a state manager is. *)
Theorem stateMgr_installed_for_good ts rt :
  (is_Some (stateMachineFct rt) -> is_Some (stateMgr (node rt))) ->
  let rt' := transitAll ts rt in
  (is_Some (stateMachineFct rt') -> is_Some (stateMgr (node rt'))) /\
  (is_Some (stateMgr (node rt)) ->
   is_Some (stateMgr (node rt')) /\
   forall (ErrNoStorageCluster : error) (cluster databaseName : string),
     FlushDatabase ErrNoStorageCluster cluster databaseName (node rt') <> Panic).
Proof.
  cbn zeta. revert rt. induction ts as [|t rest IH]; intros rt Hinv.
  - cbn. split; [exact Hinv|]. intros [mgr Hmgr]. split; [by eexists|].
    intros E c d. unfold FlushDatabase. rewrite Hmgr.
    destruct (IsMaster (node rt)); [|done].
    by destruct (GetStorageCluster mgr c).
  - cbn [transitAll]. destruct (transit_keeps t rt) as (_ & Hkeep & Hfct).
    destruct (IH (transit t rt) (Hfct Hinv)) as [H1 H2].
    split; [exact H1|]. intros Hmgr. by apply H2, Hkeep.
Qed.

(** X24.  A fail-over whose state machine does not start returns the start error
    behind the prefix "start master state machine error:", stops the factory
    it had just started and closes the state manager it had just built, in
    that order, and leaves no factory installed.  The state manager that was
    installed before stays installed, so [FlushDatabase] answers as it did
    before the attempt. *)
Theorem OnFailOver_failure_cleans_up (newStateMgr : StateManager)
    (newFct : StateMachineFactory) rt (err : error) :
  factoryStart newFct = Some err ->
  let r := OnFailOver newStateMgr newFct rt in
  r.1 = Some (String.append "start master state machine error:" err) /\
  stateMachineFct r.2 = None /\
  node r.2 = node rt /\
  calls r.2 =
    calls rt ++ [CallSetStateMachineFactory newStateMgr newFct;
                 CallStart newFct; CallStop newFct; CallClose newStateMgr] /\
  (forall (ErrNoStorageCluster : error) (cluster databaseName : string),
     FlushDatabase ErrNoStorageCluster cluster databaseName (node r.2) =
     FlushDatabase ErrNoStorageCluster cluster databaseName (node rt)).
Proof.
  intros Hstart. unfold OnFailOver. rewrite Hstart. cbn.
  split_and!; try reflexivity. by rewrite <- app_assoc.
Qed.

(** X25.  What [OnResignation] calls, the first time and when it is called
    again.  The first call stops the installed state machine factory (if
    any), then closes the installed state manager (if any), and nothing else;
    it clears [stateMachineFct] and keeps [stateMgr].  A second call
    therefore stops nothing and closes the same state manager once more: over
    the two calls the factory is stopped once and the state manager closed
    twice. *)
Theorem OnResignation_twice rt :
  let rt1 := OnResignation rt in
  let rt2 := OnResignation rt1 in
  let stops :=
    match stateMachineFct rt with Some fct => [CallStop fct] | None => [] end in
  let closes :=
    match stateMgr (node rt) with Some mgr => [CallClose mgr] | None => [] end in
  calls rt1 = calls rt ++ stops ++ closes /\
  stateMachineFct rt1 = None /\ node rt1 = node rt /\
  calls rt2 = calls rt ++ stops ++ closes ++ closes /\
  stateMachineFct rt2 = None /\ node rt2 = node rt /\
  length (List.filter isStop (calls rt2)) =
    (length (List.filter isStop (calls rt)) + length stops)%nat /\
  length (List.filter isCloseCall (calls rt2)) =
    (length (List.filter isCloseCall (calls rt)) + 2 * length closes)%nat.
Proof.
  cbn zeta. unfold OnResignation. cbn.
  split_and!; try reflexivity.
  - by rewrite <- !app_assoc.
  - rewrite !List.filter_app, !length_app.
    destruct (stateMachineFct rt), (stateMgr (node rt)); cbn; lia.
  - rewrite !List.filter_app, !length_app.
    destruct (stateMachineFct rt), (stateMgr (node rt)); cbn; lia.
Qed.

End LifecycleProperties.

(** * The further properties on the scenarios *)

Section MoreScenarios.

Import scenario.

Lemma Flush_nothing_to_promote_witness :
  Flush flushOK fresh = (None, fresh).
Proof.
  apply (Flush_nothing_to_promote flushOK fresh); [(vm_compute; reflexivity)|].
  right; left. (vm_compute; reflexivity).
Defined.

Lemma NeedFlush_then_Flush_witness :
  NeedFlush eagerConfig written10 = true /\
  (Flush flushOK written10).1 = None /\
  MemDBSize (Flush flushOK written10).2 = 0 /\
  NeedFlush eagerConfig (Flush flushOK written10).2 = false.
Proof.
  split; [(vm_compute; reflexivity)|].
  destruct (NeedFlush_then_Flush eagerConfig flushOK written10)
    as (H1 & _ & _ & _ & H5 & _ & _ & H8);
    [(vm_compute; reflexivity) | (vm_compute; reflexivity) | (vm_compute; reflexivity) |].
  by split_and!.
Defined.

Lemma flushMemoryDatabase_failure_witness :
  let r := flushMemoryDatabase flushWriteFails (seq written10) written10DB
             written10 in
  r.1 = Some "disk full"%string /\
  List.filter isAck (events r.2) = List.filter isAck (events written10) /\
  MemDBFlushFailures (statistics r.2) = 1.
Proof.
  cbn zeta. split; [(vm_compute; reflexivity)|].
  destruct (flushMemoryDatabase_failure flushWriteFails (seq written10)
              written10DB written10 "disk full"%string)
    as (H1 & _ & _ & H4); [(vm_compute; reflexivity)|].
  split; [exact H1|]. rewrite H4. (vm_compute; reflexivity).
Defined.

Lemma flushMemoryDatabase_acks_witness :
  let r := flushMemoryDatabase flushOK (seq acked5) written10DB acked5 in
  r.1 = None /\
  (List.In (EvAck 7%nat 5) (events r.2) <->
   List.In (EvAck 7%nat 5) (events acked5) \/
   exists l fns, seq acked5 !! l = Some 5 /\ callbacks acked5 !! l = Some fns /\
                 List.In 7%nat fns).
Proof.
  destruct (flushMemoryDatabase_acks flushOK (seq acked5) written10DB acked5)
    as (H1 & H2); [(vm_compute; reflexivity) | (vm_compute; reflexivity) |].
  split; [exact H1 | apply H2].
Defined.

Lemma WriteRows_slot_bounds_witness :
  List.In (EvWriteRow (row 9000) None)
    (events (WriteRows mockNewMemoryDB mixedRows fresh).2) /\
  0 <= SlotIndex (row 9000) < 65536.
Proof.
  assert (List.In (EvWriteRow (row 9000) None)
            (events (WriteRows mockNewMemoryDB mixedRows fresh).2)) as Hin.
  { vm_compute. tauto. }
  split; [exact Hin|].
  destruct (WriteRows_slot_bounds mockNewMemoryDB mixedRows fresh
              (row 9000) None Hin) as [Hold | [Hb _]].
  - vm_compute in Hold. contradiction.
  - exact Hb.
Defined.

Lemma GetOrCreateMemoryDatabase_idempotent_witness :
  GetOrCreateMemoryDatabase mockNewMemoryDB 0 fresh
    = (inl (mkMock [] false 0), created) /\
  GetOrCreateMemoryDatabase failNewMemoryDB 5 created
    = (inl (mkMock [] false 0), created).
Proof.
  assert (GetOrCreateMemoryDatabase mockNewMemoryDB 0 fresh
          = (inl (mkMock [] false 0), created)) as Hfirst by reflexivity.
  split; [exact Hfirst|].
  exact (GetOrCreateMemoryDatabase_idempotent mockNewMemoryDB failNewMemoryDB
           0 5 fresh created (mkMock [] false 0) Hfirst).
Defined.

Lemma Close_complete_or_registered_witness :
  Close flushOK flushOK written10 = Some (None, closed10) /\
  seq closed10 = seq written10 /\
  mutableMemDB closed10 = mutableMemDB written10 /\
  registered closed10 = false.
Proof.
  assert (Close flushOK flushOK written10 = Some (None, closed10)) as Hc
    by (vm_compute; reflexivity).
  split; [exact Hc|].
  destruct (Close_complete_or_registered flushOK flushOK written10 None
              closed10 Hc) as (H1 & _ & _ & H4 & _ & _ & H7 & _).
  by split_and!.
Defined.

Lemma Close_stops_at_first_failure_witness :
  Close flushWriteFails flushOK failed10
  = Close flushWriteFails flushWriteFails failed10 /\
  exists f', Close flushWriteFails flushOK failed10
             = Some (Some "disk full"%string, f') /\
    (flushWrites f' <= S (flushWrites failed10))%nat.
Proof.
  apply (Close_stops_at_first_failure flushWriteFails flushOK flushWriteFails
           failed10 (MarkReadOnly written10DB) "disk full"%string);
    [vm_compute; reflexivity | vm_compute; reflexivity
    | right; split; vm_compute; reflexivity].
Defined.

Lemma Close_again_flushes_again_witness :
  exists f2,
    Close flushOK flushOK closed10 = Some (None, f2) /\
    flushWrites closed10 = 1%nat /\ flushWrites f2 = 2%nat.
Proof.
  destruct (Close_again_flushes_again flushOK flushOK written10 closed10)
    as (f2 & Hf2 & H1 & H2); [vm_compute; reflexivity|].
  exists f2. split; [exact Hf2|]. split; [(vm_compute; reflexivity)|].
  rewrite H2. (vm_compute; reflexivity).
Defined.

Lemma persistSeq_below_seq_witness :
  admissible admissibleSchedule (idle restored) = true /\
  persistedBelowSeq (fam (runSteps admissibleSchedule (idle restored))).
Proof.
  split; [(vm_compute; reflexivity)|].
  apply (persistSeq_below_seq admissibleSchedule 10000 mockCalcSlot 0
           {[1 := 10]}).
  (vm_compute; reflexivity).
Defined.

Lemma flush_single_flight_witness :
  let sys' := runSteps (take 3 admissibleSchedule) (idle written10) in
  is_Some (flushCall sys') /\ flushGate sys' /\
  NeedFlush eagerConfig (fam sys') = false /\
  Flush flushOK (fam sys') = (None, fam sys') /\
  Close flushOK flushOK (fam sys') = None.
Proof.
  cbn zeta.
  assert (is_Some (flushCall
            (runSteps (take 3 admissibleSchedule) (idle written10)))) as Hin.
  { vm_compute. by eexists. }
  destruct (flush_single_flight (take 3 admissibleSchedule) (idle written10))
    as (Hg & Hrest); [vm_compute; split; reflexivity|].
  destruct (Hrest Hin) as (H1 & H2 & H3).
  split_and!; [exact Hin | exact Hg | apply H1 | apply H2 | apply H3].
Defined.

Lemma failed_flush_blocks_later_flushes_witness :
  let sys' := runSteps afterFailure (idle failed10) in
  immutableMemDB failed10 = Some (MarkReadOnly written10DB) /\
  immutableMemDB (fam sys') = Some (MarkReadOnly written10DB) /\
  flushWrites (fam sys') = flushWrites failed10 /\
  MemDBSize (fam sys') = 16 /\
  NeedFlush eagerConfig (fam sys') = false.
Proof.
  cbn zeta.
  destruct (failed_flush_blocks_later_flushes (MarkReadOnly written10DB)
              afterFailure (idle failed10))
    as (_ & H2 & _ & H4); [(vm_compute; reflexivity) | (vm_compute; reflexivity) |].
  split_and!; [(vm_compute; reflexivity) | exact H2 | (vm_compute; reflexivity) | (vm_compute; reflexivity) |].
  apply H4.
Defined.

Lemma fileFilter_selects_readers_witness :
  (fileFilter (queryEnv tableReaders) query7 written10).1 = ([0; 8], None) /\
  fileFilter (queryEnv corruptReaders) query7 written10
  = (([], Some "corrupt block"%string),
     [QGetSnapshot; QFindReaders 7; QSnapshotClose]).
Proof.
  split.
  - destruct (fileFilter_selects_readers (queryEnv tableReaders) query7
                written10 (tableReaders 7).1 eq_refl) as [Hok _].
    rewrite (Hok [mkSlotRange 0 5; mkSlotRange 40 50; mkSlotRange 8 12]).
    + (vm_compute; reflexivity).
    + vm_compute. by repeat constructor.
  - destruct (fileFilter_selects_readers (queryEnv corruptReaders) query7
                written10 (corruptReaders 7).1 eq_refl) as [_ Herr].
    apply (Herr [("1.sst"%string, [0; 5])] [mkSlotRange 0 5]
             ("5.sst"%string, [7]) [("4.sst"%string, [8; 12])]).
    + (vm_compute; reflexivity).
    + by repeat constructor.
    + (vm_compute; reflexivity).
Defined.

Lemma Filter_concatenates_witness :
  (Filter (queryEnv tableReaders) query7 written10).1
  = ([1000; 5000; 9000; 0; 8], None).
Proof.
  apply (Filter_concatenates (queryEnv tableReaders) query7 written10
           [1000; 5000; 9000] [] [0; 8]);
    [(vm_compute; reflexivity) | (vm_compute; reflexivity) | (vm_compute; reflexivity)].
Defined.

Lemma stateMgr_installed_for_good_witness :
  let rt1 := coordinator.transit
               (coordinator.FailOver stateMgr1 startsFactory)
               (coordinator.NewMaster true) in
  let rt' := coordinator.transitAll (tail electionHistory) rt1 in
  is_Some (coordinator.stateMgr (coordinator.node rt')) /\
  coordinator.stateMachineFct rt' = None /\
  coordinator.FlushDatabase "no storage cluster" "cluster1" "db1"
    (coordinator.node rt') <> coordinator.Panic.
Proof.
  cbn zeta.
  destruct (stateMgr_installed_for_good (tail electionHistory)
              (coordinator.transit
                 (coordinator.FailOver stateMgr1 startsFactory)
                 (coordinator.NewMaster true)))
    as (_ & Hfor); [intros _; by eexists|].
  destruct Hfor as (Hmgr & Hflush); [by eexists|].
  split_and!; [exact Hmgr | (vm_compute; reflexivity) | apply Hflush].
Defined.

Lemma OnFailOver_failure_cleans_up_witness :
  let r := coordinator.OnFailOver stateMgr1 brokenFactory
             (coordinator.NewMaster true) in
  r.1 = Some "start master state machine error:no repo"%string /\
  coordinator.stateMachineFct r.2 = None /\
  coordinator.node r.2 = coordinator.node (coordinator.NewMaster true).
Proof.
  destruct (OnFailOver_failure_cleans_up stateMgr1 brokenFactory
              (coordinator.NewMaster true) "no repo"%string)
    as (H1 & H2 & H3 & _); [reflexivity|].
  by split_and!.
Defined.

End MoreScenarios.
